(** * Content validation script ([validate.js]): frontmatter parser and rule engine

    A shallow embedding of [src/validate.js].  JavaScript strings are
    sequences of UTF-16 code units; the frontmatter object is a finite map
    from property names to values; the two global accumulators [errors] and
    [warnings] are threaded through a small state-and-exception monad. *)

From Stdlib Require Import NArith ZArith Ascii String List Lia.
From stdpp Require Import base option list gmap pretty.

Local Open Scope Z_scope.
Local Open Scope list_scope.

(** ** Strings *)

(** A JavaScript string: its UTF-16 code units. *)
Abbreviation jsstring := (list N).

(** An ASCII literal as a JavaScript string. *)
Definition js (s : string) : jsstring :=
  map N_of_ascii (list_ascii_of_string s).

Definition LF : N := 10%N.        (* \n *)
Definition DQUOTE : N := 34%N.    (* double quote *)
Definition SQUOTE : N := 39%N.    (* single quote *)
Definition COMMA : N := 44%N.
Definition COLON : N := 58%N.
Definition LBRACKET : N := 91%N.
Definition RBRACKET : N := 93%N.

(** ECMAScript [WhiteSpace] and [LineTerminator] code points, the characters
    [String.prototype.trim] removes. *)
Definition isWhiteSpace (c : N) : bool :=
  (((9 <=? c) && (c <=? 13)) || (c =? 32) || (c =? 160) || (c =? 5760)
   || ((8192 <=? c) && (c <=? 8202)) || (c =? 8232) || (c =? 8233)
   || (c =? 8239) || (c =? 8287) || (c =? 12288) || (c =? 65279))%N.

Fixpoint trimStart (s : jsstring) : jsstring :=
  match s with
  | [] => []
  | c :: t => if isWhiteSpace c then trimStart t else s
  end.

Fixpoint trimEnd (s : jsstring) : jsstring :=
  match s with
  | [] => []
  | c :: t =>
      match trimEnd t with
      | [] => if isWhiteSpace c then [] else [c]
      | t' => c :: t'
      end
  end.

(** [s.trim()] *)
Definition trim (s : jsstring) : jsstring := trimEnd (trimStart s).

(** [s.indexOf(c)] for a one-character needle: the first index, or [-1]. *)
Fixpoint indexOf (c : N) (s : jsstring) : Z :=
  match s with
  | [] => -1
  | x :: t =>
      if (x =? c)%N then 0
      else let i := indexOf c t in if i <? 0 then -1 else i + 1
  end.

(** [s.substring(start, end)]: both indices are clamped to [0, length] and
    swapped when out of order. *)
Definition substring (s : jsstring) (start finish : Z) : jsstring :=
  let len := Z.of_nat (length s) in
  let a := Z.min (Z.max start 0) len in
  let b := Z.min (Z.max finish 0) len in
  take (Z.to_nat (Z.max a b - Z.min a b)) (drop (Z.to_nat (Z.min a b)) s).

(** [s.substring(start)] *)
Definition substringFrom (s : jsstring) (start : Z) : jsstring :=
  substring s start (Z.of_nat (length s)).

(** [s.split(sep)] for a one-character separator.  The result is never
    empty: the empty string splits into one empty piece. *)
Fixpoint split (sep : N) (s : jsstring) : list jsstring :=
  match s with
  | [] => [[]]
  | c :: t =>
      if (c =? sep)%N then [] :: split sep t
      else match split sep t with
           | [] => [[c]]
           | p :: ps => (c :: p) :: ps
           end
  end.

(** [parts.join(sep)] *)
Fixpoint join (sep : jsstring) (parts : list jsstring) : jsstring :=
  match parts with
  | [] => []
  | [p] => p
  | p :: ps => p ++ sep ++ join sep ps
  end.

(** [s.startsWith(p)] *)
Fixpoint startsWith (p s : jsstring) : bool :=
  match p, s with
  | [], _ => true
  | _ :: _, [] => false
  | a :: p', b :: s' => (a =? b)%N && startsWith p' s'
  end.

(** [s.endsWith(p)] *)
Definition endsWith (p s : jsstring) : bool :=
  startsWith (rev p) (rev s).

(** [s.slice(1, -1)]: the string without its first and last code unit. *)
Definition slice_1_m1 (s : jsstring) : jsstring :=
  removelast (tail s).

Definition isQuote (c : N) : bool := ((c =? DQUOTE) || (c =? SQUOTE))%N.

(** The two alternatives of the quote pattern of line 48: a quote
    character at the start of the input, or one at its end. *)
Definition stripLeadingQuote (s : jsstring) : jsstring :=
  match s with
  | c :: t => if isQuote c then t else s
  | [] => []
  end.

Fixpoint stripTrailingQuote (s : jsstring) : jsstring :=
  match s with
  | [] => []
  | [c] => if isQuote c then [] else [c]
  | c :: t => c :: stripTrailingQuote t
  end.

(** The global [replace] of that pattern by the empty string: one scan
    from left to right; the first alternative can only match at index 0 and
    the second only at the last index, and a one-character string is
    consumed by the first. *)
Definition stripQuotes (s : jsstring) : jsstring :=
  stripTrailingQuote (stripLeadingQuote s).

(** ** The frontmatter pattern *)

Definition DELIM_OPEN : jsstring := js "---" ++ [LF].
Definition DELIM_CLOSE : jsstring := [LF] ++ js "---" ++ [LF].

(** A lazy run of arbitrary characters up to the closing delimiter line:
    the shortest prefix followed by LF, three dashes, LF; the greedy second
    group takes the rest of the input. *)
Fixpoint lazyUntilClose (s : jsstring) : option (jsstring * jsstring) :=
  if startsWith DELIM_CLOSE s then Some ([], drop (length DELIM_CLOSE) s)
  else match s with
       | [] => None
       | c :: t =>
           match lazyUntilClose t with
           | Some (h, rest) => Some (c :: h, rest)
           | None => None
           end
       end.

(** [content.match(...)] with the pattern of line 36: three dashes and LF
    at the start of the input, a lazy run of at least one character (the
    first group), the closing delimiter, and the rest of the input (the
    second group).  The pattern has no [m] flag: its anchors are the two
    ends of the input.  The result is the pair of capture groups. *)
Definition matchFrontmatter (content : jsstring) : option (jsstring * jsstring) :=
  if startsWith DELIM_OPEN content then
    match drop (length DELIM_OPEN) content with
    | [] => None
    | c :: t =>
        match lazyUntilClose t with
        | Some (h, rest) => Some (c :: h, rest)
        | None => None
        end
    end
  else None.

(** ** Field values and the frontmatter object *)

(** A property value: a string, or an array of strings. *)
Inductive value :=
  | VStr (s : jsstring)
  | VList (l : list jsstring).

(** The own properties of the object literal [frontmatter]. *)
Abbreviation frontmatter := (gmap jsstring value).

Definition PROTO : jsstring := js "__proto__".

(** [frontmatter[key] = value] on an object created by [{}].  Every key
    becomes an own property, except [__proto__]: that assignment runs the
    accessor inherited from [Object.prototype], which creates no own
    property (a string is ignored; an array replaces the prototype, where
    none of the property reads of the validators can see it). *)
Definition setField (key : jsstring) (v : value) (fm : frontmatter) : frontmatter :=
  if decide (key = PROTO) then fm else <[key := v]> fm.

(** The value computed from the text after the colon (lines 47-52). *)
Definition isBracketed (s : jsstring) : bool :=
  startsWith [LBRACKET] s && endsWith [RBRACKET] s.

Definition parseValue (raw : jsstring) : value :=
  let v := stripQuotes (trim raw) in
  if isBracketed v
  then VList (map (fun e => stripQuotes (trim e)) (split COMMA (slice_1_m1 v)))
  else VStr v.

(** The body of the [forEach] callback (lines 43-56). *)
Definition parseLine (fm : frontmatter) (line : jsstring) : frontmatter :=
  let colonIndex := indexOf COLON line in
  if colonIndex >? -1 then
    let key := trim (substring line 0 colonIndex) in
    setField key (parseValue (substringFrom line (colonIndex + 1))) fm
  else fm.

(** The header, split into lines, folded into the fresh object (line 43). *)
Definition parseHeader (header : jsstring) : frontmatter :=
  fold_left parseLine (split LF header) ∅.

(** [parseFrontmatter] after the file has been read: the text of the file
    to the pair [{ frontmatter, content }]; [None] is [null]. *)
Definition parseText (content : jsstring) : option frontmatter * jsstring :=
  match matchFrontmatter content with
  | None => (None, content)
  | Some (header, body) => (Some (parseHeader header), body)
  end.


(** ** Values as the rules read them *)

(** A property read such as [frontmatter.title]: the own property, or
    [undefined] ([None]).  Neither [Object.prototype] nor an array installed
    as prototype has a property of one of the nine names the rules read. *)
Definition getField (fm : frontmatter) (name : string) : option value :=
  fm !! js name.

(** Truthiness of a property read: [undefined] and the empty string are
    falsy, a non-empty string and every array (the empty one too) are
    truthy. *)
Definition truthy (v : option value) : bool :=
  match v with
  | None => false
  | Some (VStr []) => false
  | Some (VStr (_ :: _)) => true
  | Some (VList _) => true
  end.

(** [Array.isArray(v)] *)
Definition isArray (v : option value) : bool :=
  match v with
  | Some (VList _) => true
  | _ => false
  end.

(** String conversion, as in a template literal: an array is its elements
    joined by commas, [undefined] prints as such. *)
Definition toStr (v : option value) : jsstring :=
  match v with
  | None => js "undefined"
  | Some (VStr s) => s
  | Some (VList l) => join [COMMA] l
  end.

(** A number in a template literal: its decimal digits. *)
Definition showNat (n : nat) : jsstring := js (pretty (N.of_nat n)).

(** ** The platform: date and URL parsing *)

(** A parsed URL, as far as the rules can tell URLs apart: its scheme and
    whether it has a host (an authority). *)
Record url := { scheme : jsstring; hasHost : bool }.

(** What the script takes from the JavaScript platform.
    - [dateParses s]: [Date.parse(s)] is a number (not [NaN]); the accepted
      formats beyond ISO 8601 are left to the implementation by ECMAScript.
    - [parseHierarchical scheme rest]: the URL parser on what follows the
      colon, for a special scheme or a remainder that starts with a slash
      (authority, host and path states of the URL Standard); [None] is
      failure, [Some h] success with [h] telling whether there is a host. *)
Record platform := {
  dateParses : jsstring -> bool;
  parseHierarchical : jsstring -> jsstring -> option bool
}.

Definition isC0OrSpace (c : N) : bool := (c <=? 32)%N.
Definition isTabOrNewline (c : N) : bool := ((c =? 9) || (c =? 10) || (c =? 13))%N.
Definition isUpper (c : N) : bool := ((65 <=? c) && (c <=? 90))%N.
Definition isLower (c : N) : bool := ((97 <=? c) && (c <=? 122))%N.
Definition isAlpha (c : N) : bool := isUpper c || isLower c.
Definition isDigit (c : N) : bool := ((48 <=? c) && (c <=? 57))%N.
Definition isSchemeChar (c : N) : bool :=
  (isAlpha c || isDigit c || (c =? 43) || (c =? 45) || (c =? 46))%N.
Definition toLower (c : N) : N := if isUpper c then (c + 32)%N else c.

Fixpoint dropWhile (p : N -> bool) (s : jsstring) : jsstring :=
  match s with
  | [] => []
  | c :: t => if p c then dropWhile p t else s
  end.

(** The URL parser's preparation of its input: leading and trailing C0
    controls and spaces are removed, then every tab and newline. *)
Definition urlPrepare (input : jsstring) : jsstring :=
  filter (fun c => isTabOrNewline c = false)
         (rev (dropWhile isC0OrSpace (rev (dropWhile isC0OrSpace input)))).

(** Scheme state: scheme characters are collected in lower case up to the
    first colon; anything else, or the end of the input, leaves the URL
    without a scheme. *)
Fixpoint scanScheme (s : jsstring) : option (jsstring * jsstring) :=
  match s with
  | [] => None
  | c :: t =>
      if (c =? COLON)%N then Some ([], t)
      else if isSchemeChar c then
        match scanScheme t with
        | Some (sch, rest) => Some (toLower c :: sch, rest)
        | None => None
        end
      else None
  end.

(** Scheme start state: a scheme begins with a letter. *)
Definition parseScheme (s : jsstring) : option (jsstring * jsstring) :=
  match s with
  | c :: _ => if isAlpha c then scanScheme s else None
  | [] => None
  end.

Definition isSpecialScheme (sch : jsstring) : bool :=
  existsb (fun x => bool_decide (sch = js x))
          ["ftp"; "file"; "http"; "https"; "ws"; "wss"]%string.

(** [new URL(input)] with no base URL, after the URL Standard's basic URL
    parser (the class is the platform's, not the repository's).  Without a
    scheme the parser fails: there is no base to resolve against.  After
    the scheme, a special scheme or a remainder that starts with a slash is
    parsed by [parseHierarchical]; any other remainder is an opaque path,
    which always parses and has no host. *)
Definition parseUrl (P : platform) (input : jsstring) : option url :=
  match parseScheme (urlPrepare input) with
  | None => None
  | Some (sch, rest) =>
      if isSpecialScheme sch || startsWith (js "/") rest then
        match parseHierarchical P sch rest with
        | Some h => Some {| scheme := sch; hasHost := h |}
        | None => None
        end
      else Some {| scheme := sch; hasHost := false |}
  end.

(** [isValidUrl]: the constructor returned instead of throwing.  The
    argument is converted to a string first. *)
Definition isValidUrl (P : platform) (v : option value) : bool :=
  match parseUrl P (toStr v) with
  | Some _ => true
  | None => false
  end.

(** ** The file system *)

(** A directory entry: its name, and its text when [readFileSync] can read
    it ([None]: the read throws). *)
Abbreviation entry := (jsstring * option jsstring)%type.

(** The part of the file system the script looks at.
    - [BLOG_DIR], [PROJECTS_DIR]: the two paths computed from [__dirname];
    - [blogDir], [projectsDir]: the listing of each directory in the order
      [readdirSync] returns it, [None] when [existsSync] says it is absent
      (a path that exists is taken to be a directory);
    - [imageExists p]: [existsSync] on [p] joined to the repository root. *)
Record filesystem := {
  BLOG_DIR : jsstring;
  PROJECTS_DIR : jsstring;
  blogDir : option (list entry);
  projectsDir : option (list entry);
  imageExists : jsstring -> bool
}.

(** ** The accumulators and the monad of the rule engine *)

(** The two global arrays [errors] and [warnings]. *)
Record log := { errors : list jsstring; warnings : list jsstring }.

(** How a call ends: it returns, or an exception leaves it; the arrays are
    as the call left them either way. *)
Inductive outcome (A : Type) :=
  | Returned (a : A) (l : log)
  | Thrown (l : log).
Arguments Returned {A} a l.
Arguments Thrown {A} l.

Definition M (A : Type) : Type := log -> outcome A.

Definition ret {A} (a : A) : M A := fun l => Returned a l.
Definition bind {A B} (k : A -> M B) (m : M A) : M B :=
  fun l => match m l with
           | Returned a l' => k a l'
           | Thrown l' => Thrown l'
           end.
Definition throw {A} : M A := fun l => Thrown l.

#[global] Instance M_ret : MRet M := @ret.
#[global] Instance M_bind : MBind M := @bind.

(** [errors.push(msg)] and [warnings.push(msg)] *)
Definition pushError (msg : jsstring) : M unit :=
  fun l => Returned tt {| errors := errors l ++ [msg]; warnings := warnings l |}.
Definition pushWarning (msg : jsstring) : M unit :=
  fun l => Returned tt {| errors := errors l; warnings := warnings l ++ [msg] |}.

(** An [if] without [else]. *)
Definition when (b : bool) (m : M unit) : M unit := if b then m else ret tt.

(** [files.forEach(f)] *)
Fixpoint forEach {A} (xs : list A) (f : A -> M unit) : M unit :=
  match xs with
  | [] => ret tt
  | x :: rest => f x ;; forEach rest f
  end.

Definition logOf {A} (o : outcome A) : log :=
  match o with
  | Returned _ l => l
  | Thrown l => l
  end.

(** ** The rule engine *)

Section Rules.

Variable P : platform.
Variable fs : filesystem.

(** [checkDirectory(dir, name)] *)
Definition checkDirectory (dir : jsstring) (listing : option (list entry))
    (name : jsstring) : M bool :=
  match listing with
  | None => pushError (name ++ js " directory not found: " ++ dir) ;; mret false
  | Some _ => mret true
  end.

(** [parseFrontmatter(filePath)]: the read, which may throw, then the
    parse of the text. *)
Definition parseFrontmatter (file : option jsstring)
    : M (option frontmatter * jsstring) :=
  match file with
  | None => throw
  | Some content => mret (parseText content)
  end.

(** [path.join(__dirname, '..', image)]: an argument that is not a string
    is a [TypeError]; the result stands for the image path under the
    repository root. *)
Definition joinRoot (image : option value) : M jsstring :=
  match image with
  | Some (VStr p) => mret p
  | _ => throw
  end.

(** [validateBlogPost(filePath, filename)]; [file] is what reading
    [filePath] gives. *)
Definition validateBlogPost (file : option jsstring) (filename : jsstring) : M unit :=
  parsed ← parseFrontmatter file;
  match parsed.1 with
  | None => pushError (filename ++ js ": Missing or invalid frontmatter")
  | Some fm =>
      let content := parsed.2 in
      when (negb (truthy (getField fm "title")))
        (pushError (filename ++ js ": Missing required field 'title'")) ;;
      when (negb (truthy (getField fm "date")))
        (pushError (filename ++ js ": Missing required field 'date'")) ;;
      when (negb (truthy (getField fm "excerpt")))
        (pushWarning (filename ++ js ": Missing 'excerpt' field (recommended)")) ;;
      when (truthy (getField fm "date")
            && negb (dateParses P (toStr (getField fm "date"))))
        (pushError (filename ++ js ": Invalid date format '"
                      ++ toStr (getField fm "date") ++ js "'")) ;;
      when (truthy (getField fm "image"))
        (imagePath ← joinRoot (getField fm "image");
         when (negb (imageExists fs imagePath))
           (pushWarning (filename ++ js ": Image not found: "
                           ++ toStr (getField fm "image")))) ;;
      when (length (trim content) <? 100)%nat
        (pushWarning (filename ++ js ": Content is very short ("
                        ++ showNat (length (trim content)) ++ js " characters)")) ;;
      when (truthy (getField fm "tags") && isArray (getField fm "tags")
            && (match getField fm "tags" with
                | Some (VList l) => (length l =? 0)%nat
                | _ => false
                end))
        (pushWarning (filename ++ js ": Tags array is empty"))
  end.

(** [validateProject(filePath, filename)] *)
Definition validateProject (file : option jsstring) (filename : jsstring) : M unit :=
  parsed ← parseFrontmatter file;
  match parsed.1 with
  | None => pushError (filename ++ js ": Missing or invalid frontmatter")
  | Some fm =>
      let content := parsed.2 in
      when (negb (truthy (getField fm "title")))
        (pushError (filename ++ js ": Missing required field 'title'")) ;;
      when (negb (truthy (getField fm "description")))
        (pushError (filename ++ js ": Missing required field 'description'")) ;;
      when (negb (truthy (getField fm "technologies"))
            || negb (isArray (getField fm "technologies"))
            || (match getField fm "technologies" with
                | Some (VList l) => (length l =? 0)%nat
                | _ => false
                end))
        (pushWarning (filename ++ js ": No technologies listed")) ;;
      (if truthy (getField fm "image") then
         imagePath ← joinRoot (getField fm "image");
         when (negb (imageExists fs imagePath))
           (pushWarning (filename ++ js ": Image not found: "
                           ++ toStr (getField fm "image")))
       else pushWarning (filename ++ js ": No featured image specified")) ;;
      when (negb (truthy (getField fm "demo_url"))
            && negb (truthy (getField fm "github_url")))
        (pushWarning (filename ++ js ": No demo or GitHub URL provided")) ;;
      when (truthy (getField fm "demo_url")
            && negb (isValidUrl P (getField fm "demo_url")))
        (pushError (filename ++ js ": Invalid demo_url: "
                      ++ toStr (getField fm "demo_url"))) ;;
      when (truthy (getField fm "github_url")
            && negb (isValidUrl P (getField fm "github_url")))
        (pushError (filename ++ js ": Invalid github_url: "
                      ++ toStr (getField fm "github_url"))) ;;
      when (length (trim content) <? 200)%nat
        (pushWarning (filename ++ js ": Project details are very short ("
                        ++ showNat (length (trim content)) ++ js " characters)"))
  end.

(** [readdirSync(dir).filter(f => f.endsWith('.md'))] *)
Definition markdownFiles (listing : option (list entry)) : list entry :=
  filter (fun e => endsWith (js ".md") e.1 = true) (default [] listing).

(** [validateBlogPosts()]; the progress lines on the console are left out. *)
Definition validateBlogPosts : M unit :=
  present ← checkDirectory (BLOG_DIR fs) (blogDir fs) (js "Blog");
  if negb present then mret tt
  else
    let files := markdownFiles (blogDir fs) in
    if (length files =? 0)%nat then pushWarning (js "No blog posts found")
    else forEach files (fun e => validateBlogPost e.2 (js "blog/" ++ e.1)).

(** [validateProjects()] *)
Definition validateProjects : M unit :=
  present ← checkDirectory (PROJECTS_DIR fs) (projectsDir fs) (js "Projects");
  if negb present then mret tt
  else
    let files := markdownFiles (projectsDir fs) in
    if (length files =? 0)%nat then pushWarning (js "No projects found")
    else forEach files (fun e => validateProject e.2 (js "projects/" ++ e.1)).

(** Lines 248-250: [process.exit(1)] when [errors] is not empty; otherwise
    [main] runs off its end and the process ends with status [0]. *)
Definition exitDecision : M Z :=
  fun l => if (0 <? length (errors l))%nat then Returned 1 l else Returned 0 l.

(** [main()]: both sections, then the exit decision; the result is the
    status [main] leaves the process with.  The report on the console is
    left out. *)
Definition main : M Z :=
  validateBlogPosts ;;
  validateProjects ;;
  exitDecision.

(** A run of the script: [main()] on the empty accumulators. *)
Definition run : outcome Z := main {| errors := []; warnings := [] |}.

End Rules.

(** The exit status of the process: what [main] decided, or [1] when an
    exception nobody catches ended the run. *)
Definition exitCode (o : outcome Z) : Z :=
  match o with
  | Returned c _ => c
  | Thrown _ => 1
  end.

(** ** Specification-side notions *)

Definition emptyLog : log := {| errors := []; warnings := [] |}.

(** A text with a well-formed header: the opening delimiter line, a
    non-empty header region, a line that is solely a delimiter followed by
    a newline, and the rest of the text. *)
Definition wellFormed (content : jsstring) : Prop :=
  exists header rest,
    header <> [] /\ content = DELIM_OPEN ++ header ++ DELIM_CLOSE ++ rest.

(** [needle] occurs in [hay]. *)
Definition contains (needle hay : jsstring) : Prop :=
  exists before after, hay = before ++ needle ++ after.

(** A character does not occur in a string. *)
Definition free (c : N) (s : jsstring) : Prop := ~ In c s.

(** Two texts differ at a position both of them have. *)
Fixpoint prefixClash (a b : jsstring) : bool :=
  match a, b with
  | x :: a', y :: b' => negb (x =? y)%N || prefixClash a' b'
  | _, _ => false
  end.

(** One rule of the engine: its message when its condition holds. *)
Definition rule (cond : bool) (msg : jsstring) : list jsstring :=
  if cond then [msg] else [].

(** The image check stops a validator when [image] is an array: [path.join]
    throws on it. *)
Definition imageThrows (fm : frontmatter) : bool := isArray (getField fm "image").

Definition imageNotFound (fs : filesystem) (fm : frontmatter) (filename : jsstring)
    : list jsstring :=
  rule (truthy (getField fm "image")
        && negb (imageExists fs (toStr (getField fm "image"))))
       (filename ++ js ": Image not found: " ++ toStr (getField fm "image")).

Definition emptyArray (v : option value) : bool :=
  match v with
  | Some (VList l) => (length l =? 0)%nat
  | _ => false
  end.

(** The errors and warnings of a blog post with a header, rule by rule, in
    the order the rules run. *)
Definition blogErrors (P : platform) (fm : frontmatter) (filename : jsstring)
    : list jsstring :=
  rule (negb (truthy (getField fm "title")))
       (filename ++ js ": Missing required field 'title'")
  ++ rule (negb (truthy (getField fm "date")))
       (filename ++ js ": Missing required field 'date'")
  ++ rule (truthy (getField fm "date")
           && negb (dateParses P (toStr (getField fm "date"))))
       (filename ++ js ": Invalid date format '"
          ++ toStr (getField fm "date") ++ js "'").

Definition blogWarnings (fs : filesystem) (fm : frontmatter)
    (content filename : jsstring) : list jsstring :=
  rule (negb (truthy (getField fm "excerpt")))
       (filename ++ js ": Missing 'excerpt' field (recommended)")
  ++ (if imageThrows fm then []
      else
        imageNotFound fs fm filename
        ++ rule (length (trim content) <? 100)%nat
             (filename ++ js ": Content is very short ("
                ++ showNat (length (trim content)) ++ js " characters)")
        ++ rule (truthy (getField fm "tags") && isArray (getField fm "tags")
                 && emptyArray (getField fm "tags"))
             (filename ++ js ": Tags array is empty")).

(** The same for a project. *)
Definition projectErrors (P : platform) (fm : frontmatter) (filename : jsstring)
    : list jsstring :=
  rule (negb (truthy (getField fm "title")))
       (filename ++ js ": Missing required field 'title'")
  ++ rule (negb (truthy (getField fm "description")))
       (filename ++ js ": Missing required field 'description'")
  ++ (if imageThrows fm then []
      else
        rule (truthy (getField fm "demo_url")
              && negb (isValidUrl P (getField fm "demo_url")))
             (filename ++ js ": Invalid demo_url: " ++ toStr (getField fm "demo_url"))
        ++ rule (truthy (getField fm "github_url")
                 && negb (isValidUrl P (getField fm "github_url")))
             (filename ++ js ": Invalid github_url: "
                ++ toStr (getField fm "github_url"))).

Definition projectWarnings (fs : filesystem) (fm : frontmatter)
    (content filename : jsstring) : list jsstring :=
  rule (negb (truthy (getField fm "technologies"))
        || negb (isArray (getField fm "technologies"))
        || emptyArray (getField fm "technologies"))
       (filename ++ js ": No technologies listed")
  ++ (if imageThrows fm then []
      else
        (if truthy (getField fm "image") then imageNotFound fs fm filename
         else [filename ++ js ": No featured image specified"])
        ++ rule (negb (truthy (getField fm "demo_url"))
                 && negb (truthy (getField fm "github_url")))
             (filename ++ js ": No demo or GitHub URL provided")
        ++ rule (length (trim content) <? 200)%nat
             (filename ++ js ": Project details are very short ("
                ++ showNat (length (trim content)) ++ js " characters)")).

(** Every array in the object has at least one element. *)
Definition listsNonEmpty (fm : frontmatter) : Prop :=
  forall k items, fm !! k = Some (VList items) -> items <> [].

(** A finding about the image of the document [filename]. *)
Definition isImageFinding (filename msg : jsstring) : Prop :=
  (exists p, msg = filename ++ js ": Image not found: " ++ p)
  \/ msg = filename ++ js ": No featured image specified".





(** What every field the parser stores looks like: the name is trimmed,
    has no colon and no newline and is not [__proto__]; a string has no
    newline and is not a bracketed text; an array has an element, and its
    elements have no comma and no newline. *)
Definition wfValue (v : value) : Prop :=
  match v with
  | VStr s => free LF s /\ isBracketed s = false
  | VList items => items <> [] /\ Forall (fun e => free COMMA e /\ free LF e) items
  end.

Definition wfField (k : jsstring) (v : value) : Prop :=
  k <> PROTO /\ free COLON k /\ free LF k /\ trim k = k /\ wfValue v.

Definition wfFields (fm : frontmatter) : Prop :=
  forall k v, fm !! k = Some v -> wfField k v.


(** A string that begins, or ends, with a quote character. *)
Definition startsWithQuote (s : jsstring) : bool :=
  match s with
  | c :: _ => isQuote c
  | [] => false
  end.

Definition endsWithQuote (s : jsstring) : bool :=
  match last s with
  | Some c => isQuote c
  | None => false
  end.

(** A text of white space only, and a text that neither begins nor ends
    with white space. *)
Definition whiteSpace (s : jsstring) : Prop := Forall (fun c => isWhiteSpace c = true) s.

Definition noSpaceAtEnds (s : jsstring) : Prop :=
  match s with c :: _ => isWhiteSpace c = false | [] => True end
  /\ match last s with Some c => isWhiteSpace c = false | None => True end.

(** Nothing, or one quote character. *)
Definition quoteOrNothing (s : jsstring) : Prop :=
  s = [] \/ exists q, isQuote q = true /\ s = [q].

(** [v] is the text [s] trimmed and quote-stripped: [s] is [v] with at most
    one quote character before it and at most one after it, and white
    space around that; a quote character that begins what is left after
    trimming is not part of [v], and neither is one that ends it. *)
Definition trimmedUnquoted (s v : jsstring) : Prop :=
  exists ws1 lq tq ws2,
    s = ws1 ++ lq ++ v ++ tq ++ ws2
    /\ whiteSpace ws1 /\ whiteSpace ws2 /\ noSpaceAtEnds (lq ++ v ++ tq)
    /\ quoteOrNothing lq /\ quoteOrNothing tq
    /\ (lq = [] -> startsWithQuote (v ++ tq) = false)
    /\ (tq = [] -> endsWithQuote v = false).

(** The field name a header line assigns to, if it has a colon. *)
Definition lineKey (line : jsstring) : option jsstring :=
  let colonIndex := indexOf COLON line in
  if colonIndex >? -1 then Some (trim (substring line 0 colonIndex)) else None.

(** A directory entry the validators get through without an exception: the
    file can be read, and its header, if it has one, has no array as
    [image]. *)
Definition passable (e : entry) : Prop :=
  exists content,
    e.2 = Some content
    /\ forall fm body, parseText content = (Some fm, body) -> imageThrows fm = false.

(** A computation that only ever pushes onto the two arrays. *)
Definition appends {A} (m : M A) : Prop :=
  forall l, exists es ws,
    logOf (m l) = {| errors := errors l ++ es; warnings := warnings l ++ ws |}.

(** What a call pushes onto the arrays it is started with. *)
Definition newErrors {A} (m : M A) (l : log) : list jsstring :=
  drop (length (errors l)) (errors (logOf (m l))).

Definition newWarnings {A} (m : M A) (l : log) : list jsstring :=
  drop (length (warnings l)) (warnings (logOf (m l))).

(** ** Fixtures for the concrete cases *)

(** Documents are written line by line. *)
Definition unlines (ls : list jsstring) : jsstring := join [LF] ls.

(** A platform whose date parser accepts everything and whose URL parser
    accepts every hierarchical remainder. *)
Definition lenient : platform :=
  {| dateParses := fun _ => true; parseHierarchical := fun _ _ => Some true |}.

(** A document with a title and nothing else in its header. *)
Definition titleOnly : jsstring :=
  unlines [js "---"; js "title: Hello"; js "---"; js "text"].

Definition titleOnlyFields : frontmatter := <[js "title" := VStr (js "Hello")]> ∅.

(** A platform whose URL parser fails on every hierarchical remainder. *)
Definition strict : platform :=
  {| dateParses := fun _ => false; parseHierarchical := fun _ _ => None |}.

(** A site with the given listings and no image files. *)
Definition site (blog projects : option (list entry)) : filesystem :=
  {| BLOG_DIR := js "/site/content/blog";
     PROJECTS_DIR := js "/site/content/projects";
     blogDir := blog;
     projectsDir := projects;
     imageExists := fun _ => false |}.

(** ** Notions for the rest of the script *)

(** [free], as a test. *)
Definition freeb (c : N) (s : jsstring) : bool := negb (existsb (N.eqb c) s).

(** The image check has nothing to report and does not throw: [image] is
    falsy, or a string naming a file that exists. *)
Definition imageResolves (fs : filesystem) (fm : frontmatter) : bool :=
  negb (truthy (getField fm "image"))
  || (negb (isArray (getField fm "image"))
      && imageExists fs (toStr (getField fm "image"))).

(** A blog post none of the rules objects to. *)
Definition blogClean (P : platform) (fs : filesystem) (fm : frontmatter)
    (body : jsstring) : bool :=
  truthy (getField fm "title")
  && truthy (getField fm "date")
  && dateParses P (toStr (getField fm "date"))
  && truthy (getField fm "excerpt")
  && imageResolves fs fm
  && (100 <=? length (trim body))%nat.

(** A project none of the rules objects to. *)
Definition projectClean (P : platform) (fs : filesystem) (fm : frontmatter)
    (body : jsstring) : bool :=
  truthy (getField fm "title")
  && truthy (getField fm "description")
  && isArray (getField fm "technologies")
  && truthy (getField fm "image")
  && imageResolves fs fm
  && (truthy (getField fm "demo_url") || truthy (getField fm "github_url"))
  && (negb (truthy (getField fm "demo_url")) || isValidUrl P (getField fm "demo_url"))
  && (negb (truthy (getField fm "github_url"))
      || isValidUrl P (getField fm "github_url"))
  && (200 <=? length (trim body))%nat.

(** The findings one directory entry adds to empty accumulators. *)
Definition blogFindings (P : platform) (fs : filesystem) (e : entry) : log :=
  logOf (validateBlogPost P fs e.2 (js "blog/" ++ e.1) emptyLog).

Definition projectFindings (P : platform) (fs : filesystem) (e : entry) : log :=
  logOf (validateProject P fs e.2 (js "projects/" ++ e.1) emptyLog).

(** The report of [main] (lines 228-245): the arguments of its calls of
    [console.log], in order, for the accumulators as the two sections left
    them.  Characters outside ASCII are given by their UTF-16 code units:
    the chart signs are surrogate pairs, the warning sign is followed by a
    variation selector. *)
Definition BULLET : jsstring := js "   " ++ [8226%N] ++ js " ".

Definition SUCCESS_LINE : jsstring :=
  [LF; 9989%N] ++ js " All content validated successfully!".

Definition summaryLine (l : log) : jsstring :=
  [LF; 55357%N; 56520%N] ++ js " Summary: " ++ showNat (length (errors l))
  ++ js " error(s), " ++ showNat (length (warnings l)) ++ js " warning(s)".

Definition report (l : log) : list jsstring :=
  [ [LF; 55357%N; 56522%N] ++ js " Validation Results:"; repeat 9473%N 50 ]
  ++ (if (0 <? length (errors l))%nat
      then ([LF; 10060%N] ++ js " Errors:") :: map (app BULLET) (errors l)
      else [])
  ++ (if (0 <? length (warnings l))%nat
      then ([LF; 9888%N; 65039%N] ++ js "  Warnings:")
           :: map (app BULLET) (warnings l)
      else [])
  ++ [ if (length (errors l) =? 0)%nat && (length (warnings l) =? 0)%nat
       then SUCCESS_LINE
       else summaryLine l ].

(** A site without listings on which every image path exists. *)
Definition gallery : filesystem :=
  {| BLOG_DIR := js "/site/content/blog";
     PROJECTS_DIR := js "/site/content/projects";
     blogDir := None;
     projectsDir := None;
     imageExists := fun _ => true |}.

(** A blog post and a project that meet every rule, and a site that holds
    just the two. *)
Definition cleanPost : jsstring :=
  unlines [js "---"; js "title: T"; js "date: 2024-01-01"; js "excerpt: E";
           js "---"; repeat 120%N 100].

Definition cleanPostFields : frontmatter :=
  <[js "excerpt" := VStr (js "E")]>
    (<[js "date" := VStr (js "2024-01-01")]> (<[js "title" := VStr (js "T")]> ∅)).

Definition cleanProject : jsstring :=
  unlines [js "---"; js "title: T"; js "description: D"; js "technologies: [rocq]";
           js "image: /i.png"; js "demo_url: https://example.org"; js "---";
           repeat 120%N 200].

Definition cleanProjectFields : frontmatter :=
  <[js "demo_url" := VStr (js "https://example.org")]>
    (<[js "image" := VStr (js "/i.png")]>
       (<[js "technologies" := VList [js "rocq"]]>
          (<[js "description" := VStr (js "D")]> (<[js "title" := VStr (js "T")]> ∅)))).

Definition cleanSite : filesystem :=
  {| BLOG_DIR := js "/site/content/blog";
     PROJECTS_DIR := js "/site/content/projects";
     blogDir := Some [(js "post.md", Some cleanPost)];
     projectsDir := Some [(js "project.md", Some cleanProject)];
     imageExists := fun _ => true |}.

(** A project that meets every rule but for its image, which is written as
    given, and the fields it parses to when the image parses to [image]. *)
Definition projectWithImage (image : jsstring) : jsstring :=
  unlines [js "---"; js "title: T"; js "description: D"; js "technologies: [rocq]";
           js "image: " ++ image; js "demo_url: https://example.org"; js "---";
           repeat 120%N 200].

Definition projectFieldsWithImage (image : value) : frontmatter :=
  <[js "demo_url" := VStr (js "https://example.org")]>
    (<[js "image" := image]>
       (<[js "technologies" := VList [js "rocq"]]>
          (<[js "description" := VStr (js "D")]> (<[js "title" := VStr (js "T")]> ∅)))).

(** A site with one clean blog post, one project and no image files. *)
Definition siteWithProject (project : jsstring) : filesystem :=
  site (Some [(js "post.md", Some cleanPost)]) (Some [(js "p.md", Some project)]).

(** * Properties *)

(** ** Strings *)

Lemma startsWith_app (p s : jsstring) : startsWith p (p ++ s) = true.
Proof.
  induction p as [|a p IH]; simpl; [reflexivity|].
  rewrite N.eqb_refl. exact IH.
Qed.

Lemma startsWith_inv (p s : jsstring) :
  startsWith p s = true -> s = p ++ drop (length p) s.
Proof.
  revert s. induction p as [|a p IH]; intros s H; simpl in *.
  - reflexivity.
  - destruct s as [|b s]; [discriminate|].
    apply andb_true_iff in H as [Hab Hps].
    apply N.eqb_eq in Hab. subst b. simpl. f_equal. apply IH, Hps.
Qed.

Lemma startsWith_iff (p s : jsstring) :
  startsWith p s = true <-> exists r, s = p ++ r.
Proof.
  split.
  - intros H. eexists. apply startsWith_inv, H.
  - intros [r ->]. apply startsWith_app.
Qed.

Lemma endsWith_iff (p s : jsstring) :
  endsWith p s = true <-> exists r, s = r ++ p.
Proof.
  unfold endsWith. rewrite startsWith_iff. split.
  - intros [r H]. exists (rev r).
    apply (f_equal (@rev N)) in H. rewrite rev_involutive in H.
    rewrite H, rev_app_distr, rev_involutive. reflexivity.
  - intros [r ->]. exists (rev r). apply rev_app_distr.
Qed.

(** ** The frontmatter pattern *)

Lemma lazyUntilClose_unfold (s : jsstring) :
  lazyUntilClose s =
  if startsWith DELIM_CLOSE s then Some ([], drop (length DELIM_CLOSE) s)
  else match s with
       | [] => None
       | c :: t =>
           match lazyUntilClose t with
           | Some (h, rest) => Some (c :: h, rest)
           | None => None
           end
       end.
Proof. destruct s; reflexivity. Qed.

Lemma lazyUntilClose_Some (s h rest : jsstring) :
  lazyUntilClose s = Some (h, rest) -> s = h ++ DELIM_CLOSE ++ rest.
Proof.
  revert h rest. induction s as [|c t IH]; intros h rest;
    rewrite lazyUntilClose_unfold.
  - destruct (startsWith DELIM_CLOSE []) eqn:E; [discriminate E | discriminate].
  - destruct (startsWith DELIM_CLOSE (c :: t)) eqn:E.
    + intros [= <- <-]. apply startsWith_inv in E. exact E.
    + destruct (lazyUntilClose t) as [[h' r']|] eqn:Et; [|discriminate].
      intros [= <- <-]. simpl. f_equal. apply IH. reflexivity.
Qed.

Lemma lazyUntilClose_None (s : jsstring) :
  lazyUntilClose s = None -> forall h rest, s <> h ++ DELIM_CLOSE ++ rest.
Proof.
  induction s as [|c t IH]; rewrite lazyUntilClose_unfold; intros H h rest Heq.
  - destruct h; discriminate Heq.
  - destruct (startsWith DELIM_CLOSE (c :: t)) eqn:E; [discriminate|].
    destruct h as [|c' h'].
    + rewrite app_nil_l in Heq. rewrite Heq, startsWith_app in E. discriminate.
    + rewrite <- app_comm_cons in Heq. injection Heq as -> Ht.
      destruct (lazyUntilClose t) as [[h0 r0]|] eqn:Et; [discriminate|].
      exact (IH eq_refl h' rest Ht).
Qed.

(** The lazy group is the shortest one: no closing delimiter starts inside
    the header or overlaps its end. *)
Lemma lazyUntilClose_shortest (s h rest : jsstring) :
  lazyUntilClose s = Some (h, rest) ->
  forall h' rest', s = h' ++ DELIM_CLOSE ++ rest' -> (length h <= length h')%nat.
Proof.
  revert h rest. induction s as [|c t IH]; intros h rest;
    rewrite lazyUntilClose_unfold.
  - destruct (startsWith DELIM_CLOSE []) eqn:E; [discriminate E | discriminate].
  - destruct (startsWith DELIM_CLOSE (c :: t)) eqn:E.
    + intros [= <- <-] h' rest' _. simpl. lia.
    + destruct (lazyUntilClose t) as [[h0 r0]|] eqn:Et; [|discriminate].
      intros [= <- <-] h' rest' Heq.
      destruct h' as [|c' h'].
      * rewrite app_nil_l in Heq. rewrite Heq, startsWith_app in E. discriminate.
      * rewrite <- app_comm_cons in Heq. injection Heq as -> Ht.
        simpl. apply le_n_S. exact (IH h0 r0 eq_refl h' rest' Ht).
Qed.

Lemma matchFrontmatter_Some (content header body : jsstring) :
  matchFrontmatter content = Some (header, body) ->
  header <> [] /\ content = DELIM_OPEN ++ header ++ DELIM_CLOSE ++ body.
Proof.
  unfold matchFrontmatter.
  destruct (startsWith DELIM_OPEN content) eqn:E; [|discriminate].
  apply startsWith_inv in E.
  destruct (drop (length DELIM_OPEN) content) as [|c t] eqn:Ed; [discriminate|].
  destruct (lazyUntilClose t) as [[h r]|] eqn:Et; [|discriminate].
  intros [= <- <-]. split; [discriminate|].
  rewrite E. f_equal. simpl. f_equal.
  apply lazyUntilClose_Some, Et.
Qed.

Lemma matchFrontmatter_None (content : jsstring) :
  matchFrontmatter content = None <-> ~ wellFormed content.
Proof.
  split.
  - intros H (header & rest & Hne & ->). revert H.
    unfold matchFrontmatter. rewrite startsWith_app.
    rewrite drop_app_length.
    destruct header as [|c t]; [congruence|].
    rewrite <- app_comm_cons. cbv beta iota.
    destruct (lazyUntilClose (t ++ DELIM_CLOSE ++ rest)) as [[h r]|] eqn:E;
      [discriminate|].
    intros _. exact (lazyUntilClose_None _ E t rest eq_refl).
  - intros H. destruct (matchFrontmatter content) as [[h b]|] eqn:E; [|reflexivity].
    exfalso. apply H. apply matchFrontmatter_Some in E as [Hne Heq].
    exists h, b. split; assumption.
Qed.

(** C1.  A text that does not match the frontmatter pattern (the opening
    three-dash line, a non-empty lazy run, a line that is solely three
    dashes, a newline, the rest) parses to [null] fields and to a body that
    is the input itself, and the read-and-parse step returns that pair
    without touching the accumulators. *)
Theorem C1_no_header_null_fields (content : jsstring) :
  ~ wellFormed content ->
  parseText content = (None, content)
  /\ forall l, parseFrontmatter (Some content) l = Returned (None, content) l.
Proof.
  intros H. apply matchFrontmatter_None in H.
  assert (Hp : parseText content = (None, content)).
  { unfold parseText. rewrite H. reflexivity. }
  split; [exact Hp|].
  intros l. unfold parseFrontmatter. rewrite Hp. reflexivity.
Qed.

Lemma C1_no_header_null_fields_witness :
  parseText (js "# A post without a header") = (None, js "# A post without a header")
  /\ forall l, parseFrontmatter (Some (js "# A post without a header")) l
               = Returned (None, js "# A post without a header") l.
Proof.
  apply (C1_no_header_null_fields (js "# A post without a header")).
  apply matchFrontmatter_None. vm_compute. reflexivity.
Defined.

(** A document with a header, parsed. *)
Example parse_document :
  parseText (unlines [js "---"; js "title: Hello"; js "tags: [a, b, c]";
                      js "not a field"; js "time: 10:30"; js "---"; js "body"])
  = (Some (<[js "time" := VStr (js "10:30")]>
             (<[js "tags" := VList [js "a"; js "b"; js "c"]]>
                (<[js "title" := VStr (js "Hello")]> ∅))),
     js "body").
Proof. vm_compute. reflexivity. Qed.

(** An empty header region is no header. *)
Example parse_empty_header :
  parseText (unlines [js "---"; js "---"; js "body"])
  = (None, unlines [js "---"; js "---"; js "body"]).
Proof. vm_compute. reflexivity. Qed.

(** ** Trimming *)

Lemma trimStart_incl (c : N) (s : jsstring) : In c (trimStart s) -> In c s.
Proof.
  induction s as [|x s IH]; simpl; [tauto|].
  destruct (isWhiteSpace x); [intros H; right; exact (IH H) | tauto].
Qed.

Lemma trimEnd_incl (c : N) (s : jsstring) : In c (trimEnd s) -> In c s.
Proof.
  induction s as [|x s IH]; simpl; [tauto|].
  destruct (trimEnd s) as [|y t].
  - destruct (isWhiteSpace x); simpl; tauto.
  - intros [H|H]; [left; exact H | right; exact (IH H)].
Qed.

Lemma trim_incl (c : N) (s : jsstring) : In c (trim s) -> In c s.
Proof. intros H. apply trimStart_incl, trimEnd_incl, H. Qed.

Lemma trimEnd_snoc (m : jsstring) (c : N) :
  isWhiteSpace c = false -> trimEnd (m ++ [c]) = m ++ [c].
Proof.
  intros Hc. induction m as [|x m IH]; simpl.
  - rewrite Hc. reflexivity.
  - rewrite IH. destruct (m ++ [c]) eqn:E; [|reflexivity].
    destruct m; discriminate E.
Qed.

Lemma trimEnd_last (s : jsstring) :
  match last (trimEnd s) with
  | Some c => isWhiteSpace c = false
  | None => True
  end.
Proof.
  induction s as [|x s IH]; simpl; [exact I|].
  destruct (trimEnd s) as [|y t].
  - destruct (isWhiteSpace x) eqn:E; simpl; [exact I | exact E].
  - exact IH.
Qed.

Lemma trimEnd_head (c : N) (s : jsstring) :
  isWhiteSpace c = false -> exists t, trimEnd (c :: s) = c :: t.
Proof.
  intros Hc. simpl. destruct (trimEnd s) as [|y t].
  - rewrite Hc. eexists. reflexivity.
  - eexists. reflexivity.
Qed.

Lemma trimStart_head (s : jsstring) :
  match trimStart s with
  | c :: _ => isWhiteSpace c = false
  | [] => True
  end.
Proof.
  induction s as [|x s IH]; simpl; [exact I|].
  destruct (isWhiteSpace x) eqn:E; [exact IH | exact E].
Qed.

(** A text whose two ends are not white space is its own trim. *)
Lemma trim_fixed (s : jsstring) :
  match s with c :: _ => isWhiteSpace c = false | [] => True end ->
  match last s with Some c => isWhiteSpace c = false | None => True end ->
  trim s = s.
Proof.
  intros Hhead Hlast. unfold trim.
  assert (Hs : trimStart s = s).
  { destruct s as [|c t]; [reflexivity|]. simpl. rewrite Hhead. reflexivity. }
  rewrite Hs. clear Hs Hhead.
  destruct s as [|c m] using rev_ind; [reflexivity|].
  rewrite last_snoc in Hlast. apply trimEnd_snoc, Hlast.
Qed.

Lemma trim_ends (s : jsstring) :
  match trim s with c :: _ => isWhiteSpace c = false | [] => True end
  /\ match last (trim s) with Some c => isWhiteSpace c = false | None => True end.
Proof.
  split; [|apply trimEnd_last].
  unfold trim. pose proof (trimStart_head s) as H.
  destruct (trimStart s) as [|c t]; [exact I|].
  destruct (trimEnd_head c t H) as [t' ->]. exact H.
Qed.

Lemma trim_idempotent (s : jsstring) : trim (trim s) = trim s.
Proof. destruct (trim_ends s) as [H1 H2]. apply trim_fixed; assumption. Qed.


(** A text is its trim with white space before and after it, and white
    space around a text without white space at its ends trims away. *)
Lemma trimStart_decompose (s : jsstring) :
  exists ws, s = ws ++ trimStart s /\ whiteSpace ws.
Proof.
  induction s as [|c s (ws & Hs & Hws)].
  - exists []. split; [reflexivity | constructor].
  - simpl. destruct (isWhiteSpace c) eqn:E.
    + exists (c :: ws). split; [simpl; congruence | constructor; assumption].
    + exists []. split; [reflexivity | constructor].
Qed.

Lemma trimEnd_decompose (s : jsstring) :
  exists ws, s = trimEnd s ++ ws /\ whiteSpace ws.
Proof.
  induction s as [|c s (ws & Hs & Hws)].
  - exists []. split; [reflexivity | constructor].
  - simpl. destruct (trimEnd s) as [|y t].
    + simpl in Hs. subst s. destruct (isWhiteSpace c) eqn:E.
      * exists (c :: ws). split; [reflexivity | constructor; assumption].
      * exists ws. split; [reflexivity | assumption].
    + exists ws. split; [simpl; f_equal; exact Hs | assumption].
Qed.

Lemma trim_decompose (s : jsstring) :
  exists ws1 ws2, s = ws1 ++ trim s ++ ws2 /\ whiteSpace ws1 /\ whiteSpace ws2.
Proof.
  destruct (trimStart_decompose s) as (ws1 & H1 & Hw1).
  destruct (trimEnd_decompose (trimStart s)) as (ws2 & H2 & Hw2).
  exists ws1, ws2. unfold trim. rewrite <- H2. auto.
Qed.

Lemma trimStart_ws (ws s : jsstring) :
  whiteSpace ws -> trimStart (ws ++ s) = trimStart s.
Proof.
  intros Hws. induction Hws as [|c ws Hc _ IH]; simpl; [reflexivity|].
  rewrite Hc. exact IH.
Qed.

Lemma trimEnd_ws (s ws : jsstring) :
  whiteSpace ws -> trimEnd (s ++ ws) = trimEnd s.
Proof.
  intros Hws. induction s as [|c s IH]; simpl.
  - induction Hws as [|c ws Hc _ IH]; simpl; [reflexivity|].
    rewrite IH, Hc. reflexivity.
  - rewrite IH. reflexivity.
Qed.

Lemma trim_compose (ws1 t ws2 : jsstring) :
  whiteSpace ws1 -> whiteSpace ws2 -> noSpaceAtEnds t -> trim (ws1 ++ t ++ ws2) = t.
Proof.
  intros H1 H2 [Hhead Hlast]. unfold trim. rewrite trimStart_ws by exact H1.
  destruct t as [|c t].
  - simpl. rewrite <- (app_nil_r ws2), trimStart_ws by exact H2. reflexivity.
  - rewrite <- app_comm_cons. simpl trimStart. rewrite Hhead.
    rewrite app_comm_cons, trimEnd_ws by exact H2.
    pose proof (trim_fixed (c :: t) Hhead Hlast) as H.
    unfold trim in H. simpl trimStart in H. rewrite Hhead in H. exact H.
Qed.

(** ** Quote stripping *)

Lemma stripTrailingQuote_cons (c : N) (t : jsstring) :
  t <> [] -> stripTrailingQuote (c :: t) = c :: stripTrailingQuote t.
Proof. destruct t; [congruence | reflexivity]. Qed.

Lemma stripTrailingQuote_snoc (m : jsstring) (c : N) :
  stripTrailingQuote (m ++ [c]) = if isQuote c then m else m ++ [c].
Proof.
  induction m as [|a m IH].
  - simpl. destruct (isQuote c); reflexivity.
  - rewrite <- app_comm_cons, stripTrailingQuote_cons, IH.
    + destruct (isQuote c); reflexivity.
    + destruct m; discriminate.
Qed.

Lemma stripTrailingQuote_id (s : jsstring) :
  endsWithQuote s = false -> stripTrailingQuote s = s.
Proof.
  destruct s as [|a s] using rev_ind; [reflexivity|].
  unfold endsWithQuote. rewrite last_snoc, stripTrailingQuote_snoc.
  intros ->. reflexivity.
Qed.

Lemma stripLeadingQuote_id (s : jsstring) :
  startsWithQuote s = false -> stripLeadingQuote s = s.
Proof. destruct s as [|c t]; simpl; [reflexivity|]. intros ->. reflexivity. Qed.

Lemma endsWithQuote_snoc (m : jsstring) (c : N) :
  endsWithQuote (m ++ [c]) = isQuote c.
Proof. unfold endsWithQuote. rewrite last_snoc. reflexivity. Qed.

(** Both ends are handled independently of each other. *)
Lemma stripQuotes_both (q1 q2 : N) (m : jsstring) :
  isQuote q1 = true -> isQuote q2 = true -> stripQuotes (q1 :: m ++ [q2]) = m.
Proof.
  intros H1 H2. unfold stripQuotes. simpl. rewrite H1.
  rewrite stripTrailingQuote_snoc, H2. reflexivity.
Qed.

Lemma stripQuotes_leading_only (q : N) (m : jsstring) :
  isQuote q = true -> endsWithQuote m = false -> stripQuotes (q :: m) = m.
Proof.
  intros H1 H2. unfold stripQuotes. simpl. rewrite H1.
  apply stripTrailingQuote_id, H2.
Qed.

Lemma stripQuotes_trailing_only (q : N) (m : jsstring) :
  isQuote q = true -> startsWithQuote m = false -> stripQuotes (m ++ [q]) = m.
Proof.
  intros H1 H2. unfold stripQuotes.
  destruct m as [|c m].
  - simpl. rewrite H1. reflexivity.
  - simpl in H2. rewrite <- app_comm_cons. simpl stripLeadingQuote. rewrite H2.
    rewrite app_comm_cons, stripTrailingQuote_snoc, H1. reflexivity.
Qed.

Lemma stripQuotes_none (s : jsstring) :
  startsWithQuote s = false -> endsWithQuote s = false -> stripQuotes s = s.
Proof.
  intros H1 H2. unfold stripQuotes.
  rewrite (stripLeadingQuote_id _ H1). apply stripTrailingQuote_id, H2.
Qed.

(** What quote stripping removes, and that it removes nothing else. *)
Lemma stripTrailingQuote_decompose (m : jsstring) :
  exists tq, m = stripTrailingQuote m ++ tq /\ quoteOrNothing tq
             /\ (tq = [] -> endsWithQuote (stripTrailingQuote m) = false).
Proof.
  destruct m as [|d m] using rev_ind.
  - exists []. split; [reflexivity|]. split; [left; reflexivity | reflexivity].
  - clear IHm. rewrite stripTrailingQuote_snoc. destruct (isQuote d) eqn:E.
    + exists [d]. split; [reflexivity|].
      split; [right; exists d; split; [exact E | reflexivity] | discriminate].
    + exists []. split; [rewrite app_nil_r; reflexivity|].
      split; [left; reflexivity|]. intros _. rewrite endsWithQuote_snoc. exact E.
Qed.

Lemma stripQuotes_decompose (t : jsstring) :
  exists lq tq,
    t = lq ++ stripQuotes t ++ tq /\ quoteOrNothing lq /\ quoteOrNothing tq
    /\ (lq = [] -> startsWithQuote (stripQuotes t ++ tq) = false)
    /\ (tq = [] -> endsWithQuote (stripQuotes t) = false).
Proof.
  unfold stripQuotes.
  destruct (stripTrailingQuote_decompose (stripLeadingQuote t)) as (tq & Ht & Hq & Hend).
  destruct t as [|c t]; [|simpl in *; destruct (isQuote c) eqn:E].
  - simpl in Ht. subst tq. exists [], [].
    split; [reflexivity|]. split; [left; reflexivity|]. split; [left; reflexivity|].
    split; intros _; reflexivity.
  - exists [c], tq.
    split; [simpl; f_equal; exact Ht|].
    split; [right; exists c; split; [exact E | reflexivity]|].
    split; [exact Hq|]. split; [discriminate | exact Hend].
  - exists [], tq.
    split; [exact Ht|]. split; [left; reflexivity|]. split; [exact Hq|].
    split; [|exact Hend]. intros _. rewrite <- Ht. simpl. exact E.
Qed.

Lemma stripQuotes_compose (lq v tq : jsstring) :
  quoteOrNothing lq -> quoteOrNothing tq ->
  (lq = [] -> startsWithQuote (v ++ tq) = false) ->
  (tq = [] -> endsWithQuote v = false) ->
  stripQuotes (lq ++ v ++ tq) = v.
Proof.
  intros [->|(q1 & Hq1 & ->)] [->|(q2 & Hq2 & ->)] Hstart Hend; simpl app.
  - rewrite app_nil_r in *. apply stripQuotes_none; auto.
  - specialize (Hstart eq_refl). apply stripQuotes_trailing_only; [exact Hq2|].
    destruct v as [|c v]; [simpl in Hstart; congruence | exact Hstart].
  - rewrite app_nil_r. apply stripQuotes_leading_only; auto.
  - apply stripQuotes_both; assumption.
Qed.

(** Trimming and quote stripping, as one relation between a text and what
    is read from it. *)
Lemma trimmedUnquoted_iff (s v : jsstring) :
  trimmedUnquoted s v <-> v = stripQuotes (trim s).
Proof.
  split.
  - intros (ws1 & lq & tq & ws2 & -> & Hw1 & Hw2 & Hends & Hlq & Htq & Hstart & Hend).
    replace (ws1 ++ lq ++ v ++ tq ++ ws2) with (ws1 ++ (lq ++ v ++ tq) ++ ws2)
      by (rewrite <- !app_assoc; reflexivity).
    rewrite trim_compose by assumption.
    symmetry. apply stripQuotes_compose; assumption.
  - intros ->.
    destruct (trim_decompose s) as (ws1 & ws2 & Hs & Hw1 & Hw2).
    destruct (stripQuotes_decompose (trim s)) as (lq & tq & Ht & Hlq & Htq & Hstart & Hend).
    exists ws1, lq, tq, ws2. rewrite <- Ht.
    split; [|split; [exact Hw1 | split; [exact Hw2 | split; [apply trim_ends|]]]].
    + rewrite Hs at 1. rewrite Ht at 1. rewrite <- !app_assoc. reflexivity.
    + auto.
Qed.

(** ** Splitting *)

Lemma split_nonempty (sep : N) (s : jsstring) : split sep s <> [].
Proof.
  induction s as [|c t IH]; simpl; [discriminate|].
  destruct (c =? sep)%N; [discriminate|].
  destruct (split sep t); [congruence | discriminate].
Qed.

Lemma join_cons (sep p : jsstring) (ps : list jsstring) :
  ps <> [] -> join sep (p :: ps) = p ++ sep ++ join sep ps.
Proof. destruct ps; [congruence | reflexivity]. Qed.

Lemma join_split (sep : N) (s : jsstring) : join [sep] (split sep s) = s.
Proof.
  induction s as [|c t IH]; simpl; [reflexivity|].
  destruct (c =? sep)%N eqn:E.
  - apply N.eqb_eq in E. subst c.
    rewrite join_cons by apply split_nonempty. rewrite IH. reflexivity.
  - pose proof (split_nonempty sep t) as Hne.
    destruct (split sep t) as [|p ps]; [congruence|].
    destruct ps as [|p' ps].
    + simpl in *. congruence.
    + rewrite join_cons by discriminate. rewrite join_cons in IH by discriminate.
      rewrite <- IH. reflexivity.
Qed.

Lemma split_free (sep : N) (s : jsstring) : Forall (free sep) (split sep s).
Proof.
  induction s as [|c t IH]; simpl.
  - constructor; [|constructor]. intros [].
  - destruct (c =? sep)%N eqn:E.
    + constructor; [intros [] | exact IH].
    + pose proof (split_nonempty sep t) as Hne.
      destruct (split sep t) as [|p ps]; [congruence|].
      inversion IH as [|? ? Hp Hps]; subst.
      constructor; [|exact Hps].
      intros [Hc|Hin]; [|exact (Hp Hin)].
      subst c. rewrite N.eqb_refl in E. discriminate.
Qed.

(** ** List values *)

Lemma bracketed_inv (v : jsstring) :
  startsWith [LBRACKET] v = true -> endsWith [RBRACKET] v = true ->
  exists inner, v = [LBRACKET] ++ inner ++ [RBRACKET] /\ slice_1_m1 v = inner.
Proof.
  intros Hs He.
  apply startsWith_iff in Hs as [r ->].
  apply endsWith_iff in He as [r' He].
  destruct r' as [|c r'].
  - discriminate He.
  - simpl in He. injection He as <- ->.
    exists r'. split; [reflexivity|].
    unfold slice_1_m1. simpl. apply removelast_last.
Qed.

Lemma parseValue_scalar (raw : jsstring) :
  isBracketed (stripQuotes (trim raw)) = false ->
  parseValue raw = VStr (stripQuotes (trim raw)).
Proof. intros H. unfold parseValue. rewrite H. reflexivity. Qed.

(** C2, as the script does it.  A scalar is the trimmed text with a quote
    character removed at its start, if there is one, and a quote character
    removed at its end, if there is one, each end on its own and once: a
    pair is removed whether or not its two characters match, a quote on one
    side only is removed as well, what lies inside is kept as it is (inner
    quotes too), and a text with no quote at either end is unchanged. *)
Theorem C2_quotes_stripped_per_end :
  (forall raw, isBracketed (stripQuotes (trim raw)) = false ->
     parseValue raw = VStr (stripQuotes (trim raw)))
  /\ (forall q1 q2 m, isQuote q1 = true -> isQuote q2 = true ->
        stripQuotes (q1 :: m ++ [q2]) = m)
  /\ (forall q m, isQuote q = true -> endsWithQuote m = false ->
        stripQuotes (q :: m) = m)
  /\ (forall q m, isQuote q = true -> startsWithQuote m = false ->
        stripQuotes (m ++ [q]) = m)
  /\ (forall s, startsWithQuote s = false -> endsWithQuote s = false ->
        stripQuotes s = s)
  /\ parseValue ([DQUOTE] ++ js "hello" ++ [DQUOTE]) = VStr (js "hello")
  /\ parseValue (js "'it''s'") = VStr (js "it''s").
Proof.
  split; [exact parseValue_scalar|].
  split; [exact stripQuotes_both|].
  split; [exact stripQuotes_leading_only|].
  split; [exact stripQuotes_trailing_only|].
  split; [exact stripQuotes_none|].
  split; vm_compute; reflexivity.
Qed.

Lemma C2_quotes_stripped_per_end_witness :
  parseValue (js " 'draft") = VStr (js "draft")
  /\ stripQuotes (js "'draft") = js "draft".
Proof.
  destruct C2_quotes_stripped_per_end as (Hscalar & _ & Hlead & _).
  split.
  - rewrite (Hscalar (js " 'draft")) by (vm_compute; reflexivity).
    vm_compute. reflexivity.
  - apply (Hlead SQUOTE (js "draft")); vm_compute; reflexivity.
Defined.

(** C2 as stated fails: a quote on one side only, and a pair of different
    quote characters, do not survive. *)
Lemma C2_one_sided_quote_is_stripped :
  (parseHeader (js "title: " ++ [DQUOTE] ++ js "hello") !! js "title"
     = Some (VStr (js "hello"))
   /\ trim ([DQUOTE] ++ js "hello") = [DQUOTE] ++ js "hello")
  /\ parseHeader (js "title: " ++ [DQUOTE] ++ js "hello'") !! js "title"
     = Some (VStr (js "hello")).
Proof. repeat split; vm_compute; reflexivity. Qed.

Lemma parseValue_list (raw inner : jsstring) :
  stripQuotes (trim raw) = [LBRACKET] ++ inner ++ [RBRACKET] ->
  parseValue raw
  = VList (map (fun e => stripQuotes (trim e)) (split COMMA inner)).
Proof.
  intros H. unfold parseValue, isBracketed. rewrite H.
  assert (Hs : startsWith [LBRACKET] ([LBRACKET] ++ inner ++ [RBRACKET]) = true)
    by apply startsWith_app.
  assert (He : endsWith [RBRACKET] ([LBRACKET] ++ inner ++ [RBRACKET]) = true).
  { apply endsWith_iff. exists ([LBRACKET] ++ inner). rewrite <- app_assoc. reflexivity. }
  rewrite Hs, He. simpl andb. cbv iota.
  destruct (bracketed_inv _ Hs He) as (inner' & Heq & Hslice).
  rewrite Hslice.
  apply app_inv_head in Heq. apply app_inv_tail in Heq. subst inner'. reflexivity.
Qed.

(** C3.  When the trimmed, quote-stripped text starts with an opening and
    ends with a closing bracket, the value is the list of the pieces between
    the commas of what the brackets enclose, each trimmed and quote-stripped
    on its own.  The pieces are those of [split]: joined by commas they give
    the enclosed text back, and none contains a comma.  Trimmed and
    quote-stripped means, for the whole text as for each piece: the white
    space around it is dropped, then a quote character at the start and a
    quote character at the end, and nothing else.  So [[a, b, c]] is the
    three elements in order, a pair of brackets with nothing between is the
    list of one empty string, and padded or quoted elements lose their
    padding and their outer quotes and keep what is inside. *)
Theorem C3_bracketed_value_is_list :
  (forall raw,
     startsWith [LBRACKET] (stripQuotes (trim raw)) = true ->
     endsWith [RBRACKET] (stripQuotes (trim raw)) = true ->
     exists inner,
       stripQuotes (trim raw) = [LBRACKET] ++ inner ++ [RBRACKET]
       /\ parseValue raw
          = VList (map (fun e => stripQuotes (trim e)) (split COMMA inner)))
  /\ (forall inner,
        join [COMMA] (split COMMA inner) = inner
        /\ Forall (free COMMA) (split COMMA inner))
  /\ (forall raw inner,
        stripQuotes (trim raw) = [LBRACKET] ++ inner ++ [RBRACKET] ->
        parseValue raw
        = VList (map (fun e => stripQuotes (trim e)) (split COMMA inner)))
  /\ (forall s v, v = stripQuotes (trim s) <-> trimmedUnquoted s v)
  /\ parseValue (js "[a, b, c]") = VList [js "a"; js "b"; js "c"]
  /\ parseValue (js "[]") = VList [[]]
  /\ parseHeader (js "tags: [a, b, c]") !! js "tags"
     = Some (VList [js "a"; js "b"; js "c"])
  /\ parseHeader (js "tags: []") !! js "tags" = Some (VList [[]])
  /\ parseValue (js " [rocq, 'js' ]") = VList [js "rocq"; js "js"]
  /\ parseValue ([LBRACKET; DQUOTE] ++ js "a b" ++ [DQUOTE] ++ js " ,c', 'it''s'"
                   ++ [RBRACKET] ++ js "  ")
     = VList [js "a b"; js "c"; js "it''s"]
  /\ parseHeader (js "tags: ['x' , y ] ") !! js "tags" = Some (VList [js "x"; js "y"]).
Proof.
  split.
  - intros raw Hs He.
    destruct (bracketed_inv _ Hs He) as (inner & Heq & _).
    exists inner. split; [exact Heq|]. apply parseValue_list, Heq.
  - split.
    + intros inner. split; [apply join_split | apply split_free].
    + split; [exact parseValue_list|].
      split; [intros s v; symmetry; apply trimmedUnquoted_iff|].
      repeat split; vm_compute; reflexivity.
Qed.

Lemma C3_bracketed_value_is_list_witness :
  parseValue (js " [rocq, 'js' ]") = VList [js "rocq"; js "js"]
  /\ trimmedUnquoted (js " 'js' ") (js "js").
Proof.
  destruct C3_bracketed_value_is_list as (_ & _ & Hlist & Helement & _).
  split.
  - rewrite (Hlist (js " [rocq, 'js' ]") (js "rocq, 'js' ")) by (vm_compute; reflexivity).
    vm_compute. reflexivity.
  - apply Helement. vm_compute. reflexivity.
Defined.

(** ** Header lines *)

Lemma indexOf_ge (c : N) (s : jsstring) : -1 <= indexOf c s.
Proof.
  induction s as [|x t IH]; simpl; [lia|].
  destruct (x =? c)%N; [lia|].
  destruct (indexOf c t <? 0) eqn:E; lia.
Qed.

Lemma indexOf_free (c : N) (s : jsstring) : free c s -> indexOf c s = -1.
Proof.
  unfold free. induction s as [|x t IH]; simpl; intros H; [reflexivity|].
  destruct (x =? c)%N eqn:E.
  - apply N.eqb_eq in E. exfalso. apply H. left. exact E.
  - rewrite IH by (intros Hin; apply H; right; exact Hin). reflexivity.
Qed.

Lemma indexOf_first (c : N) (a b : jsstring) :
  free c a -> indexOf c (a ++ c :: b) = Z.of_nat (length a).
Proof.
  unfold free. induction a as [|x a IH]; intros H.
  - simpl. rewrite N.eqb_refl. reflexivity.
  - rewrite <- app_comm_cons. cbn [indexOf].
    destruct (x =? c)%N eqn:E.
    + apply N.eqb_eq in E. exfalso. apply H. left. exact E.
    + rewrite IH by (intros Hin; apply H; right; exact Hin).
      destruct (Z.of_nat (length a) <? 0) eqn:E'; [lia|].
      cbn [length]. lia.
Qed.

Lemma indexOf_found (c : N) (s : jsstring) :
  (indexOf c s >? -1) = true ->
  exists a b, s = a ++ c :: b /\ free c a.
Proof.
  induction s as [|x t IH]; simpl; intros H; [discriminate|].
  destruct (x =? c)%N eqn:E.
  - apply N.eqb_eq in E. subst x. exists [], t. split; [reflexivity | intros []].
  - destruct (indexOf c t <? 0) eqn:E'; [discriminate|].
    destruct IH as (a & b & -> & Hfree).
    { pose proof (indexOf_ge c t). lia. }
    exists (x :: a), b. split; [reflexivity|].
    intros [Hx|Hin]; [|exact (Hfree Hin)].
    subst x. rewrite N.eqb_refl in E. discriminate.
Qed.

Lemma substring_take_drop (s : jsstring) (i j : nat) :
  (i <= j <= length s)%nat ->
  substring s (Z.of_nat i) (Z.of_nat j) = take (j - i) (drop i s).
Proof.
  intros H. unfold substring. cbv zeta.
  replace (Z.min (Z.max (Z.of_nat i) 0) (Z.of_nat (length s)))
    with (Z.of_nat i) by lia.
  replace (Z.min (Z.max (Z.of_nat j) 0) (Z.of_nat (length s)))
    with (Z.of_nat j) by lia.
  replace (Z.max (Z.of_nat i) (Z.of_nat j) - Z.min (Z.of_nat i) (Z.of_nat j))
    with (Z.of_nat (j - i)) by lia.
  replace (Z.min (Z.of_nat i) (Z.of_nat j)) with (Z.of_nat i) by lia.
  rewrite !Nat2Z.id. reflexivity.
Qed.

Lemma substring_prefix (a b : jsstring) :
  substring (a ++ b) 0 (Z.of_nat (length a)) = a.
Proof.
  change 0 with (Z.of_nat 0).
  rewrite substring_take_drop by (rewrite length_app; lia).
  rewrite Nat.sub_0_r. simpl. apply take_app_length.
Qed.

Lemma substringFrom_suffix (a b : jsstring) (c : N) :
  substringFrom (a ++ c :: b) (Z.of_nat (length a) + 1) = b.
Proof.
  unfold substringFrom.
  replace (Z.of_nat (length a) + 1) with (Z.of_nat (S (length a))) by lia.
  rewrite substring_take_drop by (rewrite length_app; simpl; lia).
  replace (a ++ c :: b) with ((a ++ [c]) ++ b) by (rewrite <- app_assoc; reflexivity).
  replace (S (length a)) with (length (a ++ [c])) by (rewrite length_app; simpl; lia).
  rewrite drop_app_length. apply take_ge.
  rewrite !length_app. simpl. lia.
Qed.

(** A line with no colon is skipped. *)
Lemma parseLine_no_colon (fm : frontmatter) (line : jsstring) :
  free COLON line -> parseLine fm line = fm.
Proof.
  intros H. unfold parseLine. rewrite (indexOf_free _ _ H). reflexivity.
Qed.

(** Only the first colon separates: the name is the trimmed text before
    it, the value comes from all of the text after it. *)
Lemma parseLine_first_colon (fm : frontmatter) (a b : jsstring) :
  free COLON a ->
  parseLine fm (a ++ COLON :: b) = setField (trim a) (parseValue b) fm.
Proof.
  intros H. unfold parseLine. rewrite (indexOf_first _ _ _ H).
  replace (Z.of_nat (length a) >? -1) with true
    by (symmetry; apply Z.gtb_lt; lia).
  rewrite substring_prefix, substringFrom_suffix. reflexivity.
Qed.

Lemma lineKey_first_colon (a b : jsstring) :
  free COLON a -> lineKey (a ++ COLON :: b) = Some (trim a).
Proof.
  intros H. unfold lineKey. rewrite (indexOf_first _ _ _ H).
  replace (Z.of_nat (length a) >? -1) with true
    by (symmetry; apply Z.gtb_lt; lia).
  rewrite substring_prefix. reflexivity.
Qed.

Lemma parseLine_other_key (fm : frontmatter) (line k : jsstring) :
  lineKey line <> Some k -> parseLine fm line !! k = fm !! k.
Proof.
  unfold lineKey, parseLine.
  destruct (indexOf COLON line >? -1); [|reflexivity].
  intros H. unfold setField. case_decide; [reflexivity|].
  apply lookup_insert_ne. congruence.
Qed.

Lemma parseLines_other_keys (lines : list jsstring) (fm : frontmatter) (k : jsstring) :
  Forall (fun line => lineKey line <> Some k) lines ->
  fold_left parseLine lines fm !! k = fm !! k.
Proof.
  revert fm. induction lines as [|line lines IH]; intros fm H; [reflexivity|].
  inversion H as [|? ? Hline Hrest]; subst. simpl.
  rewrite IH by exact Hrest. apply parseLine_other_key, Hline.
Qed.

(** Among the lines that assign to one name, other than [__proto__], the
    last one decides the value. *)
Lemma parseLines_last_wins (before after : list jsstring) (a b : jsstring)
    (fm : frontmatter) :
  free COLON a -> trim a <> PROTO ->
  Forall (fun line => lineKey line <> Some (trim a)) after ->
  fold_left parseLine (before ++ (a ++ COLON :: b) :: after) fm !! trim a
  = Some (parseValue b).
Proof.
  intros Ha Hproto Hafter.
  rewrite fold_left_app. simpl.
  rewrite parseLines_other_keys by exact Hafter.
  rewrite parseLine_first_colon by exact Ha.
  unfold setField. case_decide; [congruence|].
  apply lookup_insert_eq.
Qed.

(** No line ever stores an own property named [__proto__]. *)
Lemma parseLines_no_proto (lines : list jsstring) (fm : frontmatter) :
  fm !! PROTO = None -> fold_left parseLine lines fm !! PROTO = None.
Proof.
  revert fm. induction lines as [|line lines IH]; intros fm H; [exact H|].
  simpl. apply IH. unfold parseLine.
  destruct (indexOf COLON line >? -1); [|exact H].
  unfold setField. case_decide as Hk; [exact H|].
  rewrite lookup_insert_ne by exact Hk. exact H.
Qed.

(** C4 at the field name [__proto__].  The line [__proto__: x] has a colon,
    yet the parsed mapping holds no field of that name: the assignment on
    the object literal stores nothing.  The other lines are unaffected. *)
Lemma C4_proto_field_not_stored :
  lineKey (js "__proto__: x") = Some (js "__proto__")
  /\ parseHeader (js "__proto__: x") = ∅
  /\ (forall header, parseHeader header !! js "__proto__" = None)
  /\ parseText (unlines [js "---"; js "__proto__: x"; js "title: T"; js "---"; []])
     = (Some (<[js "title" := VStr (js "T")]> ∅), []).
Proof.
  split; [vm_compute; reflexivity|].
  split; [vm_compute; reflexivity|].
  split; [|vm_compute; reflexivity].
  intros header. apply parseLines_no_proto. apply lookup_empty.
Qed.

(** ** The rule engine, rule by rule *)

Lemma when_pushError (c : bool) (msg : jsstring) (l : log) :
  when c (pushError msg) l
  = Returned tt {| errors := errors l ++ rule c msg; warnings := warnings l |}.
Proof.
  destruct l as [es ws]. destruct c; simpl; [reflexivity|].
  unfold mret, M_ret, ret. rewrite app_nil_r. reflexivity.
Qed.

Lemma when_pushWarning (c : bool) (msg : jsstring) (l : log) :
  when c (pushWarning msg) l
  = Returned tt {| errors := errors l; warnings := warnings l ++ rule c msg |}.
Proof.
  destruct l as [es ws]. destruct c; simpl; [reflexivity|].
  unfold mret, M_ret, ret. rewrite app_nil_r. reflexivity.
Qed.

Lemma bind_apply {A B} (k : A -> M B) (m : M A) (l : log) :
  (m ≫= k) l = match m l with
               | Returned a l' => k a l'
               | Thrown l' => Thrown l'
               end.
Proof. reflexivity. Qed.

(** The image step of both validators: the warning when the file is
    missing, an exception when the value is an array. *)
Lemma image_step (fs : filesystem) (fm : frontmatter) (filename : jsstring) (l : log) :
  when (truthy (getField fm "image"))
    (imagePath ← joinRoot (getField fm "image");
     when (negb (imageExists fs imagePath))
       (pushWarning (filename ++ js ": Image not found: "
                       ++ toStr (getField fm "image")))) l
  = if imageThrows fm then Thrown l
    else Returned tt {| errors := errors l;
                        warnings := warnings l ++ imageNotFound fs fm filename |}.
Proof.
  unfold imageThrows, imageNotFound.
  destruct (getField fm "image") as [[[|c p]|items]|]; simpl.
  - unfold mret, M_ret, ret. rewrite app_nil_r. destruct l; reflexivity.
  - rewrite bind_apply. simpl. apply when_pushWarning.
  - reflexivity.
  - unfold mret, M_ret, ret. rewrite app_nil_r. destruct l; reflexivity.
Qed.

Ltac step_rule :=
  rewrite bind_apply;
  first [rewrite when_pushError | rewrite when_pushWarning | rewrite image_step];
  cbv beta iota; cbn [errors warnings].

Lemma validateBlogPost_header (P : platform) (fs : filesystem)
    (content body filename : jsstring) (fm : frontmatter) (l : log) :
  parseText content = (Some fm, body) ->
  validateBlogPost P fs (Some content) filename l
  = (if imageThrows fm then Thrown else Returned tt)
      {| errors := errors l ++ blogErrors P fm filename;
         warnings := warnings l ++ blogWarnings fs fm body filename |}.
Proof.
  intros Hparse. unfold validateBlogPost, parseFrontmatter.
  rewrite bind_apply. unfold mret at 1, M_ret at 1, ret at 1. rewrite Hparse.
  cbv beta iota. cbn [fst snd].
  do 4 step_rule.
  rewrite bind_apply, image_step.
  unfold blogErrors, blogWarnings.
  destruct (imageThrows fm).
  - rewrite app_nil_r, <- !app_assoc. reflexivity.
  - cbv beta iota. cbn [errors warnings].
    step_rule. rewrite when_pushWarning. cbn [errors warnings].
    rewrite <- !app_assoc. reflexivity.
Qed.

Lemma validateProject_header (P : platform) (fs : filesystem)
    (content body filename : jsstring) (fm : frontmatter) (l : log) :
  parseText content = (Some fm, body) ->
  validateProject P fs (Some content) filename l
  = (if imageThrows fm then Thrown else Returned tt)
      {| errors := errors l ++ projectErrors P fm filename;
         warnings := warnings l ++ projectWarnings fs fm body filename |}.
Proof.
  intros Hparse. unfold validateProject, parseFrontmatter.
  rewrite bind_apply. unfold mret at 1, M_ret at 1, ret at 1. rewrite Hparse.
  cbv beta iota. cbn [fst snd].
  do 3 step_rule.
  rewrite bind_apply.
  unfold projectErrors, projectWarnings.
  destruct (truthy (getField fm "image")) eqn:Himg.
  - pose proof (image_step fs fm filename) as Hstep.
    rewrite Himg in Hstep. cbn [when] in Hstep. rewrite Hstep.
    destruct (imageThrows fm).
    + rewrite !app_nil_r, <- !app_assoc. reflexivity.
    + cbv beta iota. cbn [errors warnings].
      do 3 step_rule. rewrite when_pushWarning. cbn [errors warnings].
      rewrite <- !app_assoc. reflexivity.
  - assert (Hno : imageThrows fm = false).
    { unfold imageThrows. destruct (getField fm "image") as [[|]|]; [reflexivity|discriminate|reflexivity]. }
    rewrite Hno. unfold pushWarning at 1. cbv beta iota. cbn [errors warnings].
    do 3 step_rule. rewrite when_pushWarning. cbn [errors warnings].
    rewrite <- !app_assoc. reflexivity.
Qed.

(** A document without a header: one error, then the validator returns. *)
Lemma validate_no_header (P : platform) (fs : filesystem)
    (content filename : jsstring) (l : log) :
  parseText content = (None, content) ->
  validateBlogPost P fs (Some content) filename l
  = Returned tt {| errors := errors l ++ [filename ++ js ": Missing or invalid frontmatter"];
                   warnings := warnings l |}
  /\ validateProject P fs (Some content) filename l
     = Returned tt {| errors := errors l ++ [filename ++ js ": Missing or invalid frontmatter"];
                      warnings := warnings l |}.
Proof.
  intros Hparse. unfold validateBlogPost, validateProject, parseFrontmatter.
  rewrite !bind_apply. unfold mret, M_ret, ret. rewrite Hparse.
  split; reflexivity.
Qed.

(** ** The accumulators only grow *)

Lemma appends_ret {A} (a : A) : appends (mret a : M A).
Proof.
  intros l. exists [], []. simpl. rewrite !app_nil_r. destruct l; reflexivity.
Qed.

Lemma appends_throw {A} : appends (throw : M A).
Proof.
  intros l. exists [], []. simpl. rewrite !app_nil_r. destruct l; reflexivity.
Qed.

Lemma appends_pushError (msg : jsstring) : appends (pushError msg).
Proof. intros l. exists [msg], []. simpl. rewrite app_nil_r. reflexivity. Qed.

Lemma appends_pushWarning (msg : jsstring) : appends (pushWarning msg).
Proof. intros l. exists [], [msg]. simpl. rewrite app_nil_r. reflexivity. Qed.

Lemma appends_bind {A B} (m : M A) (k : A -> M B) :
  appends m -> (forall a, appends (k a)) -> appends (m ≫= k).
Proof.
  intros Hm Hk l. rewrite bind_apply.
  destruct (Hm l) as (es & ws & Hl).
  destruct (m l) as [a l'|l']; simpl in Hl; subst l'.
  - destruct (Hk a {| errors := errors l ++ es; warnings := warnings l ++ ws |})
      as (es' & ws' & Hl').
    exists (es ++ es'), (ws ++ ws'). rewrite Hl'. simpl.
    rewrite !app_assoc. reflexivity.
  - exists es, ws. reflexivity.
Qed.

Lemma appends_forEach {A} (xs : list A) (f : A -> M unit) :
  (forall x, appends (f x)) -> appends (forEach xs f).
Proof.
  intros Hf. induction xs as [|x xs IH]; simpl.
  - apply appends_ret.
  - apply appends_bind; [apply Hf | intros _; exact IH].
Qed.

Lemma appends_validateBlogPost (P : platform) (fs : filesystem)
    (file : option jsstring) (filename : jsstring) :
  appends (validateBlogPost P fs file filename).
Proof.
  intros l. destruct file as [content|].
  - destruct (parseText content) as [[fm|] body] eqn:Hparse.
    + rewrite (validateBlogPost_header P fs content body filename fm l Hparse).
      eexists _, _. destruct (imageThrows fm); reflexivity.
    + assert (Hb : body = content).
      { unfold parseText in Hparse.
        destruct (matchFrontmatter content) as [[h b]|]; congruence. }
      subst body.
      rewrite (proj1 (validate_no_header P fs content filename l Hparse)).
      eexists _, []. simpl. rewrite (app_nil_r (warnings l)). reflexivity.
  - exists [], []. simpl. rewrite !app_nil_r. destruct l; reflexivity.
Qed.

Lemma appends_validateProject (P : platform) (fs : filesystem)
    (file : option jsstring) (filename : jsstring) :
  appends (validateProject P fs file filename).
Proof.
  intros l. destruct file as [content|].
  - destruct (parseText content) as [[fm|] body] eqn:Hparse.
    + rewrite (validateProject_header P fs content body filename fm l Hparse).
      eexists _, _. destruct (imageThrows fm); reflexivity.
    + assert (Hb : body = content).
      { unfold parseText in Hparse.
        destruct (matchFrontmatter content) as [[h b]|]; congruence. }
      subst body.
      rewrite (proj2 (validate_no_header P fs content filename l Hparse)).
      eexists _, []. simpl. rewrite (app_nil_r (warnings l)). reflexivity.
  - exists [], []. simpl. rewrite !app_nil_r. destruct l; reflexivity.
Qed.

Lemma appends_section (listing : option (list entry)) (dir name none : jsstring)
    (f : entry -> M unit) :
  (forall e, appends (f e)) ->
  appends (present ← checkDirectory dir listing name;
           if negb present then mret tt
           else if (length (markdownFiles listing) =? 0)%nat then pushWarning none
                else forEach (markdownFiles listing) f).
Proof.
  intros Hf. apply appends_bind.
  - unfold checkDirectory. destruct listing.
    + apply appends_ret.
    + apply appends_bind; [apply appends_pushError | intros _; apply appends_ret].
  - intros [|]; simpl.
    + destruct (length (markdownFiles listing) =? 0)%nat.
      * apply appends_pushWarning.
      * apply appends_forEach, Hf.
    + apply appends_ret.
Qed.

Lemma appends_validateBlogPosts (P : platform) (fs : filesystem) :
  appends (validateBlogPosts P fs).
Proof.
  apply appends_section. intros e. apply appends_validateBlogPost.
Qed.

Lemma appends_validateProjects (P : platform) (fs : filesystem) :
  appends (validateProjects P fs).
Proof.
  apply appends_section. intros e. apply appends_validateProject.
Qed.

(** ** The exit status *)

Lemma exitDecision_spec (l : log) :
  exists c, exitDecision l = Returned c l
            /\ (c = 0 <-> errors l = []) /\ (errors l <> [] -> c = 1).
Proof.
  unfold exitDecision. destruct (errors l) as [|e es] eqn:E; simpl.
  - exists 0. repeat split; congruence.
  - exists 1. repeat split; try congruence; discriminate.
Qed.

Lemma main_Returned (P : platform) (fs : filesystem) (l0 : log) (c : Z) (l : log) :
  main P fs l0 = Returned c l ->
  (c = 0 <-> errors l = []) /\ (errors l <> [] -> c = 1).
Proof.
  unfold main. rewrite bind_apply.
  destruct (validateBlogPosts P fs l0) as [[] l1|l1]; [|discriminate].
  rewrite bind_apply.
  destruct (validateProjects P fs l1) as [[] l2|l2]; [|discriminate].
  destruct (exitDecision_spec l2) as (c' & Hc & Hiff & Hone).
  rewrite Hc. intros [= <- <-]. split; assumption.
Qed.

(** Once an error is recorded the status is [1], however the run ends. *)
Lemma main_exit_1 (P : platform) (fs : filesystem) (l0 : log) :
  errors (logOf (validateBlogPosts P fs l0)) <> [] ->
  exitCode (main P fs l0) = 1.
Proof.
  intros Herr. unfold main. rewrite bind_apply.
  destruct (validateBlogPosts P fs l0) as [[] l1|l1]; [|reflexivity].
  simpl in Herr. rewrite bind_apply.
  destruct (appends_validateProjects P fs l1) as (es & ws & Hl).
  destruct (validateProjects P fs l1) as [[] l2|l2]; [|reflexivity].
  simpl in Hl. subst l2.
  unfold exitDecision. cbn [errors].
  destruct (errors l1 ++ es) as [|e rest] eqn:E; [|reflexivity].
  apply app_eq_nil in E as [E _]. congruence.
Qed.

(** ** Blog posts without a date *)

Lemma blogErrors_no_date (P : platform) (fm : frontmatter) (filename : jsstring) :
  truthy (getField fm "title") = true -> getField fm "date" = None ->
  blogErrors P fm filename = [filename ++ js ": Missing required field 'date'"].
Proof.
  intros Htitle Hdate. unfold blogErrors. rewrite Htitle, Hdate. reflexivity.
Qed.

Lemma validateBlogPosts_single (P : platform) (fs : filesystem)
    (name : jsstring) (file : option jsstring) (l : log) :
  endsWith (js ".md") name = true ->
  blogDir fs = Some [(name, file)] ->
  logOf (validateBlogPosts P fs l)
  = logOf (validateBlogPost P fs file (js "blog/" ++ name) l).
Proof.
  intros Hmd Hdir. unfold validateBlogPosts. rewrite Hdir.
  unfold checkDirectory. rewrite bind_apply.
  unfold mret at 1, M_ret at 1, ret at 1. cbv beta iota. cbn [negb].
  unfold markdownFiles. cbn [from_option id].
  rewrite filter_cons_True by exact Hmd. rewrite filter_nil.
  cbn [length Nat.eqb forEach fst snd]. rewrite bind_apply.
  destruct (validateBlogPost P fs file (js "blog/" ++ name) l); reflexivity.
Qed.

(** C5.  A blog post whose header parses, with a truthy [title] and no
    [date] field, gets exactly one error, the missing-date one, whose text
    contains the word date; and a run over a site whose only document it is
    (a blog directory holding just that markdown file, no project document)
    ends with exit status 1. *)
Theorem C5_blog_without_date (P : platform) (fs : filesystem)
    (name content body : jsstring) (fm : frontmatter) :
  parseText content = (Some fm, body) ->
  truthy (getField fm "title") = true ->
  getField fm "date" = None ->
  endsWith (js ".md") name = true ->
  blogDir fs = Some [(name, Some content)] ->
  markdownFiles (projectsDir fs) = [] ->
  (forall filename l,
     errors (logOf (validateBlogPost P fs (Some content) filename l))
     = errors l ++ [filename ++ js ": Missing required field 'date'"]
     /\ contains (js "date") (filename ++ js ": Missing required field 'date'"))
  /\ exitCode (run P fs) = 1.
Proof.
  intros Hparse Htitle Hdate Hmd Hblog _.
  assert (Hdoc : forall filename l,
             errors (logOf (validateBlogPost P fs (Some content) filename l))
             = errors l ++ [filename ++ js ": Missing required field 'date'"]).
  { intros filename l.
    rewrite (validateBlogPost_header P fs content body filename fm l Hparse).
    rewrite (blogErrors_no_date P fm filename Htitle Hdate).
    destruct (imageThrows fm); reflexivity. }
  split.
  - intros filename l. split; [apply Hdoc|].
    exists (filename ++ js ": Missing required field '"), (js "'").
    rewrite <- app_assoc. reflexivity.
  - unfold run. apply main_exit_1.
    rewrite (validateBlogPosts_single P fs name (Some content) _ Hmd Hblog).
    rewrite Hdoc. simpl. discriminate.
Qed.

Lemma C5_blog_without_date_witness :
  (forall filename l,
     errors (logOf (validateBlogPost lenient
                      (site (Some [(js "hello.md",
                                    Some (unlines [js "---"; js "title: Hello"; js "---"; js "text"]))])
                            (Some []))
                      (Some (unlines [js "---"; js "title: Hello"; js "---"; js "text"]))
                      filename l))
     = errors l ++ [filename ++ js ": Missing required field 'date'"]
     /\ contains (js "date") (filename ++ js ": Missing required field 'date'"))
  /\ exitCode (run lenient
                 (site (Some [(js "hello.md",
                               Some (unlines [js "---"; js "title: Hello"; js "---"; js "text"]))])
                       (Some [])))
     = 1.
Proof.
  apply (C5_blog_without_date lenient _ (js "hello.md")
           (unlines [js "---"; js "title: Hello"; js "---"; js "text"])
           (js "text") (<[js "title" := VStr (js "Hello")]> ∅));
    vm_compute; reflexivity.
Defined.

(** ** Telling messages apart *)

Lemma prefixClash_app (a b ta tb : jsstring) :
  prefixClash a b = true -> a ++ ta <> b ++ tb.
Proof.
  revert b. induction a as [|x a IH]; intros [|y b]; simpl; try discriminate.
  intros H Heq. injection Heq as -> Heq.
  rewrite N.eqb_refl in H. exact (IH b H Heq).
Qed.

Lemma prefixClash_app_l (a b ta : jsstring) :
  prefixClash a b = true -> a ++ ta <> b.
Proof. intros H. rewrite <- (app_nil_r b). apply prefixClash_app, H. Qed.

Lemma prefixClash_app_r (a b tb : jsstring) :
  prefixClash a b = true -> a <> b ++ tb.
Proof. intros H. rewrite <- (app_nil_r a). apply prefixClash_app, H. Qed.

Lemma prefixClash_neq (a b : jsstring) : prefixClash a b = true -> a <> b.
Proof. intros H. rewrite <- (app_nil_r a). apply prefixClash_app_l, H. Qed.

(** Two messages for the same file are equal only if they agree after the
    file name; the fixed texts of the rules differ from one another before
    any variable part begins. *)
Ltac distinct_messages H :=
  apply app_inv_head in H; exfalso; revert H;
  first [ apply prefixClash_app; vm_compute; reflexivity
        | apply prefixClash_app_l; vm_compute; reflexivity
        | apply prefixClash_app_r; vm_compute; reflexivity
        | apply prefixClash_neq; vm_compute; reflexivity ].

Lemma in_rule (c : bool) (msg m : jsstring) : In m (rule c msg) -> c = true /\ m = msg.
Proof.
  destruct c; simpl; [intros [H|[]]; split; congruence | intros []].
Qed.

Lemma in_rule_iff (c : bool) (msg m : jsstring) :
  In m (rule c msg) <-> c = true /\ m = msg.
Proof.
  split; [apply in_rule|]. intros [-> ->]. left. reflexivity.
Qed.

(** ** Image findings *)

Lemma imageNotFound_found (fs : filesystem) (fm : frontmatter) (filename p : jsstring) :
  getField fm "image" = Some (VStr p) -> p <> [] -> imageExists fs p = false ->
  imageNotFound fs fm filename = [filename ++ js ": Image not found: " ++ p].
Proof.
  intros Himg Hp Hex. unfold imageNotFound. rewrite Himg. cbn [toStr].
  rewrite Hex. destruct p; [congruence | reflexivity].
Qed.

Lemma in_imageNotFound (fs : filesystem) (fm : frontmatter) (filename m : jsstring) :
  In m (imageNotFound fs fm filename) ->
  imageThrows fm = false ->
  exists p, getField fm "image" = Some (VStr p) /\ p <> [] /\ imageExists fs p = false
            /\ m = filename ++ js ": Image not found: " ++ p.
Proof.
  unfold imageNotFound, imageThrows. intros Hin Hthrow.
  apply in_rule in Hin as [Hc ->]. apply andb_true_iff in Hc as [Ht Hex].
  destruct (getField fm "image") as [[[|c p]|items]|]; try discriminate.
  exists (c :: p). cbn [toStr] in *. repeat split; try congruence.
  apply negb_true_iff, Hex.
Qed.

(** The findings of a blog post about its image: nothing, or the one
    warning for a path that is given and does not resolve. *)
Lemma blog_image_findings (P : platform) (fs : filesystem) (fm : frontmatter)
    (body filename m : jsstring) :
  In m (blogErrors P fm filename ++ blogWarnings fs fm body filename) ->
  isImageFinding filename m ->
  exists p, getField fm "image" = Some (VStr p) /\ p <> [] /\ imageExists fs p = false
            /\ m = filename ++ js ": Image not found: " ++ p.
Proof.
  unfold blogErrors, blogWarnings. rewrite !in_app_iff.
  intros Hin Himage.
  assert (Hcases :
    (exists tail, m = filename ++ js ": Missing " ++ tail)
    \/ (exists tail, m = filename ++ js ": Invalid date " ++ tail)
    \/ (exists tail, m = filename ++ js ": Content " ++ tail)
    \/ m = filename ++ js ": Tags array is empty"
    \/ (imageThrows fm = false /\ In m (imageNotFound fs fm filename))).
  { destruct Hin as [[H|[H|H]]|[H|H]].
    - apply in_rule in H as [_ ->]. left. eexists. reflexivity.
    - apply in_rule in H as [_ ->]. left. eexists. reflexivity.
    - apply in_rule in H as [_ ->]. right; left. eexists. reflexivity.
    - apply in_rule in H as [_ ->]. left. eexists. reflexivity.
    - destruct (imageThrows fm) eqn:Hthrow; [destruct H|].
      rewrite !in_app_iff in H. destruct H as [H|[H|H]].
      + right; right; right; right. split; [reflexivity | exact H].
      + apply in_rule in H as [_ ->]. right; right; left. eexists. reflexivity.
      + apply in_rule in H as [_ ->]. right; right; right; left. reflexivity. }
  destruct Hcases as [[t ->]|[[t ->]|[[t ->]|[->|[Hthrow Hin']]]]].
  - destruct Himage as [[p H]|H]; distinct_messages H.
  - destruct Himage as [[p H]|H]; distinct_messages H.
  - destruct Himage as [[p H]|H]; distinct_messages H.
  - destruct Himage as [[p H]|H]; distinct_messages H.
  - apply (in_imageNotFound fs fm filename m Hin' Hthrow).
Qed.

Lemma new_blog (P : platform) (fs : filesystem)
    (content body filename : jsstring) (fm : frontmatter) (l : log) :
  parseText content = (Some fm, body) ->
  newErrors (validateBlogPost P fs (Some content) filename) l = blogErrors P fm filename
  /\ newWarnings (validateBlogPost P fs (Some content) filename) l
     = blogWarnings fs fm body filename.
Proof.
  intros Hparse. unfold newErrors, newWarnings.
  rewrite (validateBlogPost_header P fs content body filename fm l Hparse).
  destruct (imageThrows fm); cbn [logOf errors warnings];
    rewrite !drop_app_length; split; reflexivity.
Qed.

Lemma new_project (P : platform) (fs : filesystem)
    (content body filename : jsstring) (fm : frontmatter) (l : log) :
  parseText content = (Some fm, body) ->
  newErrors (validateProject P fs (Some content) filename) l = projectErrors P fm filename
  /\ newWarnings (validateProject P fs (Some content) filename) l
     = projectWarnings fs fm body filename.
Proof.
  intros Hparse. unfold newErrors, newWarnings.
  rewrite (validateProject_header P fs content body filename fm l Hparse).
  destruct (imageThrows fm); cbn [logOf errors warnings];
    rewrite !drop_app_length; split; reflexivity.
Qed.

Lemma projectWarnings_image (fs : filesystem) (fm : frontmatter)
    (body filename m : jsstring) :
  In m (projectWarnings fs fm body filename) ->
  m = filename ++ js ": No technologies listed"
  \/ m = filename ++ js ": No demo or GitHub URL provided"
  \/ (exists tail, m = filename ++ js ": Project details " ++ tail)
  \/ (truthy (getField fm "image") = false
      /\ m = filename ++ js ": No featured image specified")
  \/ (truthy (getField fm "image") = true /\ imageThrows fm = false
      /\ In m (imageNotFound fs fm filename)).
Proof.
  unfold projectWarnings. rewrite in_app_iff. intros [H|H].
  - apply in_rule in H as [_ ->]. left. reflexivity.
  - destruct (imageThrows fm) eqn:Hthrow; [destruct H|].
    rewrite !in_app_iff in H. destruct H as [H|[H|H]].
    + destruct (truthy (getField fm "image")) eqn:Ht.
      * right; right; right; right.
        split; [reflexivity | split; [reflexivity | exact H]].
      * destruct H as [<-|[]]. right; right; right; left. split; reflexivity.
    + apply in_rule in H as [_ ->]. right; left. reflexivity.
    + apply in_rule in H as [_ ->]. right; right; left. eexists. reflexivity.
Qed.

(** X23.  The image rules for paths.  For a document whose header parses:
    - a project with no [image] field gets the warning that no featured
      image is specified, and no image-not-found warning;
    - a project whose [image] is a non-empty path that does not exist under
      the repository root gets the image-not-found warning naming that
      path, and not the other one; a blog post gets the same warning;
    - a blog post with no [image] field gets no finding about its image;
      in general the only image finding of a blog post is the
      image-not-found warning for a given path that does not resolve. *)
Theorem X23_image_rules_for_paths (P : platform) (fs : filesystem)
    (content body filename : jsstring) (fm : frontmatter) (l : log) :
  parseText content = (Some fm, body) ->
  (getField fm "image" = None ->
     In (filename ++ js ": No featured image specified")
        (newWarnings (validateProject P fs (Some content) filename) l)
     /\ (forall p, ~ In (filename ++ js ": Image not found: " ++ p)
                        (newWarnings (validateProject P fs (Some content) filename) l))
     /\ (forall m, In m (newErrors (validateBlogPost P fs (Some content) filename) l
                         ++ newWarnings (validateBlogPost P fs (Some content) filename) l) ->
                   ~ isImageFinding filename m))
  /\ (forall p, getField fm "image" = Some (VStr p) -> p <> [] ->
                imageExists fs p = false ->
        In (filename ++ js ": Image not found: " ++ p)
           (newWarnings (validateProject P fs (Some content) filename) l)
        /\ ~ In (filename ++ js ": No featured image specified")
                (newWarnings (validateProject P fs (Some content) filename) l)
        /\ In (filename ++ js ": Image not found: " ++ p)
              (newWarnings (validateBlogPost P fs (Some content) filename) l))
  /\ (forall m, In m (newErrors (validateBlogPost P fs (Some content) filename) l
                      ++ newWarnings (validateBlogPost P fs (Some content) filename) l) ->
                isImageFinding filename m ->
        exists p, getField fm "image" = Some (VStr p) /\ p <> []
                  /\ imageExists fs p = false
                  /\ m = filename ++ js ": Image not found: " ++ p).
Proof.
  intros Hparse.
  destruct (new_blog P fs content body filename fm l Hparse) as [Hbe Hbw].
  destruct (new_project P fs content body filename fm l Hparse) as [_ Hpw].
  rewrite Hbe, Hbw, Hpw.
  split; [|split].
  - intros Himg. split; [|split].
    + unfold projectWarnings, imageThrows. rewrite Himg. cbn [isArray truthy].
      rewrite !in_app_iff. right; left. left. reflexivity.
    + intros p Hin.
      apply projectWarnings_image in Hin
        as [H|[H|[[t H]|[[_ H]|(Ht & _ & _)]]]];
        try distinct_messages H.
      rewrite Himg in Ht. discriminate Ht.
    + intros m Hin Hfinding.
      destruct (blog_image_findings P fs fm body filename m Hin Hfinding)
        as (p & Hp & _).
      congruence.
  - intros p Himg Hp Hex. split; [|split].
    + unfold projectWarnings, imageThrows. rewrite Himg.
      cbn [isArray]. rewrite <- Himg.
      rewrite (imageNotFound_found fs fm filename p Himg Hp Hex). rewrite Himg.
      destruct p; [congruence|]. cbn [truthy].
      rewrite !in_app_iff. right; left. left. reflexivity.
    + intros Hin.
      apply projectWarnings_image in Hin
        as [H|[H|[[t H]|[[Ht _]|(_ & _ & Hin)]]]];
        try distinct_messages H.
      * rewrite Himg in Ht. destruct p; [congruence | discriminate Ht].
      * rewrite (imageNotFound_found fs fm filename p Himg Hp Hex) in Hin.
        destruct Hin as [H|[]]. distinct_messages H.
    + unfold blogWarnings, imageThrows. rewrite Himg. cbn [isArray].
      rewrite (imageNotFound_found fs fm filename p Himg Hp Hex).
      rewrite !in_app_iff. right; left. left. reflexivity.
  - intros m Hin Hfinding.
    exact (blog_image_findings P fs fm body filename m Hin Hfinding).
Qed.

Lemma X23_image_rules_for_paths_witness :
  In (js "projects/hello.md" ++ js ": No featured image specified")
     (newWarnings (validateProject lenient (site None None) (Some titleOnly)
                     (js "projects/hello.md")) emptyLog)
  /\ In (js "projects/p.md" ++ js ": Image not found: " ++ js "/missing.png")
        (newWarnings (validateProject lenient (site None None)
                        (Some (projectWithImage (js "/missing.png")))
                        (js "projects/p.md")) emptyLog)
  /\ ~ In (js "projects/p.md" ++ js ": No featured image specified")
          (newWarnings (validateProject lenient (site None None)
                          (Some (projectWithImage (js "/missing.png")))
                          (js "projects/p.md")) emptyLog).
Proof.
  split.
  - refine (proj1 (proj1 (X23_image_rules_for_paths lenient (site None None) titleOnly
                            (js "text") (js "projects/hello.md") titleOnlyFields
                            emptyLog _) _));
      vm_compute; reflexivity.
  - refine ((fun H => conj (proj1 H) (proj1 (proj2 H)))
              (proj1 (proj2 (X23_image_rules_for_paths lenient (site None None)
                               (projectWithImage (js "/missing.png")) (repeat 120%N 200)
                               (js "projects/p.md")
                               (projectFieldsWithImage (VStr (js "/missing.png")))
                               emptyLog _))
                     (js "/missing.png") _ _ _)).
    + vm_compute. reflexivity.
    + vm_compute. reflexivity.
    + discriminate.
    + vm_compute. reflexivity.
Defined.

(** ** An image written as a list *)

(** C7.  The claim fails on a project whose [image] is written between
    brackets: the field is present and parses to an array, the path join of
    line 133 throws on it, and the validator is left by the exception with
    what the title, description and technologies rules recorded and no
    warning about the image; the rules after the image check never run.
    So for [image: [missing.png]] on a site without that file the project
    gets no image-not-found warning, and a run whose only other content is a
    clean blog post dies with status 1 and nothing recorded, whereas the
    same project with [image: missing.png] gets the warning and the run
    ends with status 0. *)
Theorem C7_array_image_throws :
  (forall (P : platform) (fs : filesystem) (content body filename : jsstring)
          (fm : frontmatter) (items : list jsstring) (l : log),
     parseText content = (Some fm, body) ->
     getField fm "image" = Some (VList items) ->
     validateProject P fs (Some content) filename l
     = Thrown {| errors := errors l
                   ++ rule (negb (truthy (getField fm "title")))
                        (filename ++ js ": Missing required field 'title'")
                   ++ rule (negb (truthy (getField fm "description")))
                        (filename ++ js ": Missing required field 'description'");
                 warnings := warnings l
                   ++ rule (negb (truthy (getField fm "technologies"))
                            || negb (isArray (getField fm "technologies"))
                            || emptyArray (getField fm "technologies"))
                        (filename ++ js ": No technologies listed") |}
     /\ forall m, In m (newErrors (validateProject P fs (Some content) filename) l
                        ++ newWarnings (validateProject P fs (Some content) filename) l) ->
                  ~ isImageFinding filename m)
  /\ parseText (projectWithImage (js "[missing.png]"))
     = (Some (projectFieldsWithImage (VList [js "missing.png"])), repeat 120%N 200)
  /\ imageExists (siteWithProject (projectWithImage (js "[missing.png]")))
       (js "missing.png") = false
  /\ validateProject lenient (siteWithProject (projectWithImage (js "[missing.png]")))
       (Some (projectWithImage (js "[missing.png]"))) (js "projects/p.md") emptyLog
     = Thrown emptyLog
  /\ run lenient (siteWithProject (projectWithImage (js "[missing.png]")))
     = Thrown emptyLog
  /\ exitCode (run lenient (siteWithProject (projectWithImage (js "[missing.png]")))) = 1
  /\ run lenient (siteWithProject (projectWithImage (js "missing.png")))
     = Returned 0 {| errors := [];
                     warnings := [js "projects/p.md: Image not found: missing.png"] |}.
Proof.
  split.
  - intros P fs content body filename fm items l Hparse Himg.
    assert (Hthrow : imageThrows fm = true) by (unfold imageThrows; rewrite Himg; reflexivity).
    destruct (new_project P fs content body filename fm l Hparse) as [-> ->].
    rewrite (validateProject_header P fs content body filename fm l Hparse).
    unfold projectErrors, projectWarnings. rewrite Hthrow, !app_nil_r.
    split; [reflexivity|].
    intros m Hin Hfinding. rewrite !in_app_iff in Hin.
    destruct Hin as [[Hin|Hin]|Hin]; apply in_rule in Hin as [_ ->];
      destruct Hfinding as [[p H]|H]; distinct_messages H.
  - repeat split; vm_compute; reflexivity.
Qed.

Lemma C7_array_image_throws_witness :
  validateProject lenient (site None None) (Some (projectWithImage (js "[missing.png]")))
    (js "projects/p.md") emptyLog
  = Thrown emptyLog.
Proof.
  refine (eq_trans
            (proj1 (proj1 C7_array_image_throws lenient (site None None)
                      (projectWithImage (js "[missing.png]")) (repeat 120%N 200)
                      (js "projects/p.md")
                      (projectFieldsWithImage (VList [js "missing.png"]))
                      [js "missing.png"] emptyLog _ _)) _).
  - vm_compute. reflexivity.
  - vm_compute. reflexivity.
  - vm_compute. reflexivity.
Defined.

(** ** Arrays made by the parser *)

Lemma parseValue_list_nonempty (raw : jsstring) (items : list jsstring) :
  parseValue raw = VList items -> items <> [].
Proof.
  unfold parseValue. destruct (isBracketed (stripQuotes (trim raw))); [|discriminate].
  intros [= <-] Hnil. apply map_eq_nil in Hnil.
  exact (split_nonempty _ _ Hnil).
Qed.

Lemma parseLine_listsNonEmpty (fm : frontmatter) (line : jsstring) :
  listsNonEmpty fm -> listsNonEmpty (parseLine fm line).
Proof.
  intros Hfm. unfold parseLine. cbv zeta.
  destruct (indexOf COLON line >? -1); [|exact Hfm].
  unfold setField. case_decide; [exact Hfm|].
  intros k items Hk.
  destruct (decide (trim (substring line 0 (indexOf COLON line)) = k)) as [<-|Hne].
  - rewrite lookup_insert_eq in Hk. injection Hk as Hk.
    exact (parseValue_list_nonempty _ _ Hk).
  - rewrite lookup_insert_ne in Hk by exact Hne. exact (Hfm k items Hk).
Qed.

Lemma parseLines_listsNonEmpty (lines : list jsstring) (fm : frontmatter) :
  listsNonEmpty fm -> listsNonEmpty (fold_left parseLine lines fm).
Proof.
  revert fm. induction lines as [|line lines IH]; intros fm H; [exact H|].
  simpl. apply IH, parseLine_listsNonEmpty, H.
Qed.

Lemma parseHeader_listsNonEmpty (header : jsstring) : listsNonEmpty (parseHeader header).
Proof.
  apply parseLines_listsNonEmpty. intros k items Hk.
  rewrite lookup_empty in Hk. discriminate.
Qed.

Lemma parseText_listsNonEmpty (content body : jsstring) (fm : frontmatter) :
  parseText content = (Some fm, body) -> listsNonEmpty fm.
Proof.
  unfold parseText. destruct (matchFrontmatter content) as [[h b]|]; [|discriminate].
  intros [= <- _]. apply parseHeader_listsNonEmpty.
Qed.

Lemma emptyArray_parsed (fm : frontmatter) (name : string) :
  listsNonEmpty fm -> emptyArray (getField fm name) = false.
Proof.
  intros Hfm. unfold emptyArray.
  destruct (getField fm name) as [[s|items]|] eqn:E; try reflexivity.
  specialize (Hfm _ _ E). destruct items; [congruence | reflexivity].
Qed.

Lemma parseText_None_body (content body : jsstring) :
  parseText content = (None, body) -> body = content.
Proof.
  unfold parseText. destruct (matchFrontmatter content) as [[h b]|]; congruence.
Qed.

(** C10.  Every array the parser makes has an element, since a split on
    commas never yields zero pieces.  Hence, on a document the parser has
    read, the blog rule for an empty [tags] array never fires, and the
    project warning that no technologies are listed is given exactly when
    [technologies] is not an array (absent, or a string): its empty-array
    case adds nothing. *)
Theorem C10_parser_lists_nonempty :
  (forall header k items,
     parseHeader header !! k = Some (VList items) -> items <> [])
  /\ (forall P fs file filename l,
        ~ In (filename ++ js ": Tags array is empty")
             (newWarnings (validateBlogPost P fs file filename) l))
  /\ (forall P fs content body filename fm l,
        parseText content = (Some fm, body) ->
        (In (filename ++ js ": No technologies listed")
            (newWarnings (validateProject P fs (Some content) filename) l)
         <-> isArray (getField fm "technologies") = false)).
Proof.
  split; [|split].
  - intros header k items. apply parseHeader_listsNonEmpty.
  - intros P fs [content|] filename l.
    + destruct (parseText content) as [[fm|] body] eqn:Hparse.
      * rewrite (proj2 (new_blog P fs content body filename fm l Hparse)).
        pose proof (parseText_listsNonEmpty _ _ _ Hparse) as Hne.
        unfold blogWarnings. rewrite (emptyArray_parsed fm "tags" Hne).
        rewrite !andb_false_r. rewrite in_app_iff. intros [H|H].
        -- apply in_rule in H as [_ H]. distinct_messages H.
        -- destruct (imageThrows fm) eqn:Hthrow; [destruct H|].
           rewrite !in_app_iff in H. destruct H as [H|[H|H]].
           ++ apply (in_imageNotFound _ _ _ _ H) in Hthrow as (p & _ & _ & _ & Hm).
              distinct_messages Hm.
           ++ apply in_rule in H as [_ H]. distinct_messages H.
           ++ destruct H.
      * apply parseText_None_body in Hparse as Hb. subst body.
        unfold newWarnings.
        rewrite (proj1 (validate_no_header P fs content filename l Hparse)).
        cbn [logOf warnings]. rewrite drop_all. intros [].
    + unfold newWarnings. cbn. rewrite drop_all. intros [].
  - intros P fs content body filename fm l Hparse.
    rewrite (proj2 (new_project P fs content body filename fm l Hparse)).
    pose proof (parseText_listsNonEmpty _ _ _ Hparse) as Hne.
    unfold projectWarnings. rewrite (emptyArray_parsed fm "technologies" Hne).
    rewrite orb_false_r, in_app_iff, in_rule_iff. split.
    + intros [[Hc _]|H].
      * destruct (getField fm "technologies") as [[s|items]|];
          [reflexivity | discriminate Hc | reflexivity].
      * exfalso. destruct (imageThrows fm) eqn:Hthrow; [destruct H|].
        rewrite !in_app_iff in H. destruct H as [H|[H|H]].
        -- destruct (truthy (getField fm "image")).
           ++ apply (in_imageNotFound _ _ _ _ H) in Hthrow as (p & _ & _ & _ & Hm).
              distinct_messages Hm.
           ++ destruct H as [H|[]]. distinct_messages H.
        -- apply in_rule in H as [_ H]. distinct_messages H.
        -- apply in_rule in H as [_ H]. distinct_messages H.
    + intros Harr. left. split; [|reflexivity].
      destruct (getField fm "technologies") as [[[|c s]|items]|];
        [reflexivity | reflexivity | discriminate Harr | reflexivity].
Qed.

Lemma C10_parser_lists_nonempty_witness :
  [[]] <> ([] : list jsstring)
  /\ In (js "projects/hello.md" ++ js ": No technologies listed")
        (newWarnings (validateProject lenient (site None None) (Some titleOnly)
                        (js "projects/hello.md")) emptyLog).
Proof.
  destruct C10_parser_lists_nonempty as (Hlists & _ & Htech).
  split.
  - apply (Hlists (js "tags: []") (js "tags") [[]]). vm_compute. reflexivity.
  - apply (Htech lenient (site None None) titleOnly (js "text")
             (js "projects/hello.md") titleOnlyFields emptyLog);
      vm_compute; reflexivity.
Defined.

(** ** Runs that reach the end of [main] *)

Lemma validateBlogPost_returns (P : platform) (fs : filesystem) (e : entry)
    (filename : jsstring) (l : log) :
  passable e -> exists l', validateBlogPost P fs e.2 filename l = Returned tt l'.
Proof.
  intros (content & -> & Himg).
  destruct (parseText content) as [[fm|] body] eqn:Hparse.
  - rewrite (validateBlogPost_header P fs content body filename fm l Hparse).
    rewrite (Himg fm body eq_refl). eexists. reflexivity.
  - apply parseText_None_body in Hparse as Hb. subst body.
    rewrite (proj1 (validate_no_header P fs content filename l Hparse)).
    eexists. reflexivity.
Qed.

Lemma validateProject_returns (P : platform) (fs : filesystem) (e : entry)
    (filename : jsstring) (l : log) :
  passable e -> exists l', validateProject P fs e.2 filename l = Returned tt l'.
Proof.
  intros (content & -> & Himg).
  destruct (parseText content) as [[fm|] body] eqn:Hparse.
  - rewrite (validateProject_header P fs content body filename fm l Hparse).
    rewrite (Himg fm body eq_refl). eexists. reflexivity.
  - apply parseText_None_body in Hparse as Hb. subst body.
    rewrite (proj2 (validate_no_header P fs content filename l Hparse)).
    eexists. reflexivity.
Qed.

Lemma forEach_returns (files : list entry) (f : entry -> M unit) (l : log) :
  Forall passable files ->
  (forall e l, passable e -> exists l', f e l = Returned tt l') ->
  exists l', forEach files f l = Returned tt l'.
Proof.
  intros Hfiles Hf. revert l.
  induction files as [|e files IH]; intros l; simpl.
  - eexists. reflexivity.
  - inversion Hfiles as [|? ? He Hrest]; subst.
    rewrite bind_apply. destruct (Hf e l He) as [l1 ->]. apply IH, Hrest.
Qed.

Lemma section_returns (listing : option (list entry)) (dir name none : jsstring)
    (f : entry -> M unit) (l : log) :
  Forall passable (markdownFiles listing) ->
  (forall e l, passable e -> exists l', f e l = Returned tt l') ->
  exists l',
    (present ← checkDirectory dir listing name;
     if negb present then mret tt
     else if (length (markdownFiles listing) =? 0)%nat then pushWarning none
          else forEach (markdownFiles listing) f) l = Returned tt l'.
Proof.
  intros Hfiles Hf. rewrite bind_apply. unfold checkDirectory.
  destruct listing as [entries|].
  - unfold mret at 1, M_ret at 1, ret at 1. cbv beta iota. cbn [negb].
    destruct (length (markdownFiles (Some entries)) =? 0)%nat.
    + eexists. reflexivity.
    + apply forEach_returns; assumption.
  - eexists. reflexivity.
Qed.

(** A run over passable files reaches the exit decision. *)
Lemma run_returns (P : platform) (fs : filesystem) :
  Forall passable (markdownFiles (blogDir fs)) ->
  Forall passable (markdownFiles (projectsDir fs)) ->
  exists c l, run P fs = Returned c l.
Proof.
  intros Hblog Hprojects. unfold run, main. rewrite bind_apply.
  destruct (section_returns (blogDir fs) (BLOG_DIR fs) (js "Blog")
              (js "No blog posts found")
              (fun e => validateBlogPost P fs e.2 (js "blog/" ++ e.1)) emptyLog Hblog)
    as [l1 H1].
  { intros e l He. apply validateBlogPost_returns, He. }
  unfold validateBlogPosts. unfold emptyLog in H1. rewrite H1. rewrite bind_apply.
  destruct (section_returns (projectsDir fs) (PROJECTS_DIR fs) (js "Projects")
              (js "No projects found")
              (fun e => validateProject P fs e.2 (js "projects/" ++ e.1)) l1 Hprojects)
    as [l2 H2].
  { intros e l He. apply validateProject_returns, He. }
  unfold validateProjects. rewrite H2.
  destruct (exitDecision_spec l2) as (c & Hc & _).
  exists c, l2. exact Hc.
Qed.

(** C8, as the script does it.  A run that reaches the end of [main] exits
    with status 0 exactly when no error was recorded, whatever the
    warnings, and with status 1 when there is an error; a run over files
    that can be read (and have no array as image) does reach the end.  A run
    that an exception cuts short exits with status 1, whatever was
    recorded. *)
Theorem C8_exit_status (P : platform) (fs : filesystem) :
  (forall c l, run P fs = Returned c l ->
     exitCode (run P fs) = c
     /\ (c = 0 <-> errors l = [])
     /\ (errors l <> [] -> c = 1))
  /\ (Forall passable (markdownFiles (blogDir fs)) ->
      Forall passable (markdownFiles (projectsDir fs)) ->
      exists c l, run P fs = Returned c l)
  /\ (forall l, run P fs = Thrown l -> exitCode (run P fs) = 1).
Proof.
  split; [|split].
  - intros c l Hrun. rewrite Hrun. split; [reflexivity|].
    exact (main_Returned P fs _ c l Hrun).
  - apply run_returns.
  - intros l Hrun. rewrite Hrun. reflexivity.
Qed.

Lemma C8_exit_status_witness :
  exitCode (run lenient (site (Some []) (Some []))) = 0
  /\ (0 = 0 <-> errors {| errors := [];
                          warnings := [js "No blog posts found"; js "No projects found"] |}
                = [])
  /\ (errors {| errors := [];
                warnings := [js "No blog posts found"; js "No projects found"] |} <> []
      -> 0 = 1).
Proof.
  apply (proj1 (C8_exit_status lenient (site (Some []) (Some [])))).
  vm_compute. reflexivity.
Defined.

(** C8 as stated fails: a listed markdown file that cannot be read ends
    the run with status 1 although no error has been recorded. *)
Lemma C8_unreadable_file_exits_1 :
  run lenient (site (Some [(js "draft.md", None)]) (Some [])) = Thrown emptyLog
  /\ exitCode (run lenient (site (Some [(js "draft.md", None)]) (Some []))) = 1
  /\ errors (logOf (run lenient (site (Some [(js "draft.md", None)]) (Some [])))) = [].
Proof. repeat split; vm_compute; reflexivity. Qed.

(** ** URL validation *)

Lemma dropWhile_snoc (p : N -> bool) (s : jsstring) (c : N) :
  p c = false -> dropWhile p (s ++ [c]) = dropWhile p s ++ [c].
Proof.
  intros Hc. induction s as [|x s IH]; simpl.
  - rewrite Hc. reflexivity.
  - destruct (p x); [exact IH | reflexivity].
Qed.

(** Preparation keeps a first character that is neither a control nor a
    space. *)
Lemma urlPrepare_head (c : N) (s : jsstring) :
  isC0OrSpace c = false -> exists s', urlPrepare (c :: s) = c :: s'.
Proof.
  intros Hc. unfold urlPrepare. cbn [dropWhile]. rewrite Hc.
  cbn [rev]. rewrite (dropWhile_snoc _ _ _ Hc), rev_app_distr. cbn [rev app].
  assert (Htab : isTabOrNewline c = false).
  { unfold isC0OrSpace in Hc. apply N.leb_gt in Hc. unfold isTabOrNewline.
    rewrite !orb_false_iff, !N.eqb_neq. lia. }
  rewrite filter_cons_True by exact Htab. eexists. reflexivity.
Qed.

Lemma isValidUrl_iff (P : platform) (v : option value) :
  isValidUrl P v = true <-> exists u, parseUrl P (toStr v) = Some u.
Proof.
  unfold isValidUrl. destruct (parseUrl P (toStr v)) as [u|].
  - split; [intros _; exists u; reflexivity | reflexivity].
  - split; [discriminate | intros [u Hu]; discriminate].
Qed.

Lemma isValidUrl_no_scheme (P : platform) (v : option value) :
  parseScheme (urlPrepare (toStr v)) = None -> isValidUrl P v = false.
Proof. intros H. unfold isValidUrl, parseUrl. rewrite H. reflexivity. Qed.

Lemma isValidUrl_not_a_letter (P : platform) (c : N) (s : jsstring) :
  isAlpha c = false -> isC0OrSpace c = false ->
  isValidUrl P (Some (VStr (c :: s))) = false.
Proof.
  intros Halpha Hc. apply isValidUrl_no_scheme. cbn [toStr].
  destruct (urlPrepare_head c s Hc) as [s' ->].
  unfold parseScheme. rewrite Halpha. reflexivity.
Qed.

Lemma parseUrl_opaque (P : platform) (input sch rest : jsstring) :
  parseScheme (urlPrepare input) = Some (sch, rest) ->
  isSpecialScheme sch = false -> startsWith (js "/") rest = false ->
  parseUrl P input = Some {| scheme := sch; hasHost := false |}.
Proof.
  intros Hscheme Hspecial Hslash. unfold parseUrl.
  rewrite Hscheme, Hspecial, Hslash. reflexivity.
Qed.

(** The errors of a project when the image step does not throw. *)
Lemma projectErrors_urls (P : platform) (fm : frontmatter) (filename : jsstring) :
  imageThrows fm = false ->
  projectErrors P fm filename
  = (rule (negb (truthy (getField fm "title")))
          (filename ++ js ": Missing required field 'title'")
     ++ rule (negb (truthy (getField fm "description")))
          (filename ++ js ": Missing required field 'description'"))
    ++ rule (truthy (getField fm "demo_url")
             && negb (isValidUrl P (getField fm "demo_url")))
         (filename ++ js ": Invalid demo_url: " ++ toStr (getField fm "demo_url"))
    ++ rule (truthy (getField fm "github_url")
             && negb (isValidUrl P (getField fm "github_url")))
         (filename ++ js ": Invalid github_url: " ++ toStr (getField fm "github_url")).
Proof.
  intros H. unfold projectErrors. rewrite H, <- !app_assoc. reflexivity.
Qed.

(** C6, as the script does it.  URL validation accepts exactly what the
    platform's URL parser parses without a base URL.  A string with no
    scheme is rejected, so is every string whose first character is not a
    letter (a relative path that starts with a slash or a dot, a scheme
    that starts with a digit).  A scheme is enough: a scheme that is not
    special, followed by something that does not start with a slash, is
    accepted and has no authority.  And for a project whose header parses
    and whose image step does not throw, a truthy [demo_url] (or
    [github_url]) that fails the validation gives exactly one error, which
    ends with the value itself. *)
Theorem C6_url_validation (P : platform) :
  (forall v, isValidUrl P v = true <-> exists u, parseUrl P (toStr v) = Some u)
  /\ (forall v, parseScheme (urlPrepare (toStr v)) = None -> isValidUrl P v = false)
  /\ (forall c s, isAlpha c = false -> isC0OrSpace c = false ->
        isValidUrl P (Some (VStr (c :: s))) = false)
  /\ (forall input sch rest,
        parseScheme (urlPrepare input) = Some (sch, rest) ->
        isSpecialScheme sch = false -> startsWith (js "/") rest = false ->
        parseUrl P input = Some {| scheme := sch; hasHost := false |})
  /\ (forall fs content body filename fm l,
        parseText content = (Some fm, body) ->
        imageThrows fm = false ->
        (truthy (getField fm "demo_url") = true ->
         isValidUrl P (getField fm "demo_url") = false ->
         exists before after,
           newErrors (validateProject P fs (Some content) filename) l
           = before
             ++ (filename ++ js ": Invalid demo_url: " ++ toStr (getField fm "demo_url"))
             :: after
           /\ ~ In (filename ++ js ": Invalid demo_url: " ++ toStr (getField fm "demo_url"))
                   (before ++ after))
        /\ (truthy (getField fm "github_url") = true ->
            isValidUrl P (getField fm "github_url") = false ->
            exists before after,
              newErrors (validateProject P fs (Some content) filename) l
              = before
                ++ (filename ++ js ": Invalid github_url: "
                      ++ toStr (getField fm "github_url"))
                :: after
              /\ ~ In (filename ++ js ": Invalid github_url: "
                         ++ toStr (getField fm "github_url"))
                      (before ++ after))).
Proof.
  split; [apply isValidUrl_iff|].
  split; [apply isValidUrl_no_scheme|].
  split; [apply isValidUrl_not_a_letter|].
  split; [apply parseUrl_opaque|].
  intros fs content body filename fm l Hparse Hthrow.
  rewrite (proj1 (new_project P fs content body filename fm l Hparse)).
  rewrite (projectErrors_urls P fm filename Hthrow).
  split.
  - intros Ht Hv. rewrite Ht, Hv. cbn [negb andb rule].
    eexists _, _. split; [reflexivity|].
    rewrite !in_app_iff. intros [[H|H]|H];
      apply in_rule in H as [_ H]; distinct_messages H.
  - intros Ht Hv. rewrite Ht, Hv. cbn [negb andb rule].
    eexists _, []. split; [rewrite app_assoc; reflexivity|].
    rewrite app_nil_r, !in_app_iff. intros [[H|H]|H];
      apply in_rule in H as [_ H]; distinct_messages H.
Qed.

Lemma C6_url_validation_witness :
  isValidUrl strict (Some (VStr (js "/projects/demo"))) = false
  /\ exists before after,
       newErrors (validateProject strict (site None None)
                    (Some (unlines [js "---"; js "demo_url: not-a-url"; js "---"; []]))
                    (js "projects/p.md")) emptyLog
       = before
         ++ (js "projects/p.md" ++ js ": Invalid demo_url: "
               ++ toStr (getField (<[js "demo_url" := VStr (js "not-a-url")]> ∅)
                           "demo_url"))
         :: after
       /\ ~ In (js "projects/p.md" ++ js ": Invalid demo_url: "
                 ++ toStr (getField (<[js "demo_url" := VStr (js "not-a-url")]> ∅)
                             "demo_url"))
               (before ++ after).
Proof.
  destruct (C6_url_validation strict) as (_ & _ & Hletter & _ & Hproject).
  split.
  - apply (Hletter 47%N (js "projects/demo")); vm_compute; reflexivity.
  - refine (proj1 (Hproject (site None None)
                     (unlines [js "---"; js "demo_url: not-a-url"; js "---"; []]) []
                     (js "projects/p.md")
                     (<[js "demo_url" := VStr (js "not-a-url")]> ∅) emptyLog _ _) _ _);
      vm_compute; reflexivity.
Defined.

(** C6 as stated fails: an address with a scheme and no authority is
    accepted, whatever the platform does with hierarchical URLs, and a
    project that gives it as [demo_url] gets no error for it. *)
Lemma C6_mailto_is_accepted :
  parseUrl strict (js "mailto:a@b.c") = Some {| scheme := js "mailto"; hasHost := false |}
  /\ isValidUrl strict (Some (VStr (js "mailto:a@b.c"))) = true
  /\ isValidUrl lenient (Some (VStr (js "mailto:a@b.c"))) = true
  /\ newErrors (validateProject strict (site None None)
                  (Some (unlines [js "---"; js "title: T"; js "description: D";
                                  js "demo_url: mailto:a@b.c"; js "---"; []]))
                  (js "projects/p.md")) emptyLog
     = [].
Proof. repeat split; vm_compute; reflexivity. Qed.

(** ** What the parsing steps keep *)

Lemma stripTrailingQuote_incl (c : N) (s : jsstring) :
  In c (stripTrailingQuote s) -> In c s.
Proof.
  induction s as [|x s IH]; [tauto|].
  destruct s as [|y s].
  - simpl. destruct (isQuote x); simpl; tauto.
  - rewrite stripTrailingQuote_cons by discriminate.
    intros [H|H]; [left; exact H | right; exact (IH H)].
Qed.

Lemma stripQuotes_incl (c : N) (s : jsstring) : In c (stripQuotes s) -> In c s.
Proof.
  unfold stripQuotes. intros H. apply stripTrailingQuote_incl in H.
  destruct s as [|x s]; [exact H|]. simpl in H.
  destruct (isQuote x); [right; exact H | exact H].
Qed.

Lemma slice_incl (c : N) (s : jsstring) : In c (slice_1_m1 s) -> In c s.
Proof.
  unfold slice_1_m1. destruct s as [|x s]; [tauto|]. simpl. intros H. right.
  destruct s as [|y s] using rev_ind; [exact H|].
  rewrite removelast_last in H. apply in_or_app. left. exact H.
Qed.

Lemma split_incl (sep c : N) (s piece : jsstring) :
  In piece (split sep s) -> In c piece -> In c s.
Proof.
  revert piece. induction s as [|x s IH]; simpl; intros piece Hp Hc.
  - destruct Hp as [<-|[]]. exact Hc.
  - destruct (x =? sep)%N.
    + destruct Hp as [<-|Hp]; [destruct Hc | right; exact (IH piece Hp Hc)].
    + pose proof (split_nonempty sep s) as Hne.
      destruct (split sep s) as [|p ps]; [congruence|].
      destruct Hp as [<-|Hp].
      * destruct Hc as [Hc|Hc]; [left; exact Hc | right].
        apply (IH p); [left; reflexivity | exact Hc].
      * right. apply (IH piece); [right; exact Hp | exact Hc].
Qed.

Lemma substring_incl (c : N) (s : jsstring) (i j : Z) :
  In c (substring s i j) -> In c s.
Proof.
  unfold substring. cbv zeta. intros H.
  apply list_elem_of_In in H. apply list_elem_of_In.
  apply elem_of_take in H as (n & H & _).
  rewrite lookup_drop in H. apply list_elem_of_lookup. eexists. exact H.
Qed.

(** ** Fields the parser stores *)

Lemma parseValue_wf (raw : jsstring) : free LF raw -> wfValue (parseValue raw).
Proof.
  intros Hraw. unfold parseValue.
  destruct (isBracketed (stripQuotes (trim raw))) eqn:Hb.
  - split.
    + intros Hnil. apply map_eq_nil in Hnil. exact (split_nonempty _ _ Hnil).
    + apply List.Forall_forall. intros e He.
      apply in_map_iff in He as (piece & <- & Hpiece).
      split; intros Hin; apply stripQuotes_incl, trim_incl in Hin.
      * pose proof (split_free COMMA (slice_1_m1 (stripQuotes (trim raw)))) as Hfree.
        rewrite List.Forall_forall in Hfree. exact (Hfree piece Hpiece Hin).
      * apply Hraw. apply trim_incl, stripQuotes_incl, slice_incl.
        exact (split_incl _ _ _ _ Hpiece Hin).
  - split; [|exact Hb].
    intros Hin. apply Hraw, trim_incl, stripQuotes_incl, Hin.
Qed.

Lemma parseLine_wf (fm : frontmatter) (line : jsstring) :
  wfFields fm -> free LF line -> wfFields (parseLine fm line).
Proof.
  intros Hfm Hline.
  destruct (indexOf COLON line >? -1) eqn:Hidx.
  - destruct (indexOf_found _ _ Hidx) as (a & b & -> & Ha).
    rewrite parseLine_first_colon by exact Ha.
    unfold setField. case_decide as Hproto; [exact Hfm|].
    intros k v Hk.
    destruct (decide (trim a = k)) as [<-|Hne].
    + rewrite lookup_insert_eq in Hk. injection Hk as <-.
      repeat split.
      * exact Hproto.
      * intros Hin. apply Ha, trim_incl, Hin.
      * intros Hin. apply Hline, in_or_app. left. apply trim_incl, Hin.
      * apply trim_idempotent.
      * apply parseValue_wf. intros Hin. apply Hline, in_or_app. right. right. exact Hin.
    + rewrite lookup_insert_ne in Hk by exact Hne. exact (Hfm k v Hk).
  - unfold parseLine. rewrite Hidx. exact Hfm.
Qed.

Lemma parseLines_wf (lines : list jsstring) (fm : frontmatter) :
  wfFields fm -> Forall (free LF) lines -> wfFields (fold_left parseLine lines fm).
Proof.
  revert fm. induction lines as [|line lines IH]; intros fm Hfm Hlines; [exact Hfm|].
  inversion Hlines as [|? ? Hline Hrest]; subst.
  simpl. apply IH; [apply parseLine_wf; assumption | exact Hrest].
Qed.

Lemma parseHeader_wf (header : jsstring) : wfFields (parseHeader header).
Proof.
  apply parseLines_wf; [|apply split_free].
  intros k v Hk. rewrite lookup_empty in Hk. discriminate.
Qed.

(** ** Splitting what was joined *)

Lemma split_whole (sep : N) (p : jsstring) : free sep p -> split sep p = [p].
Proof.
  unfold free. induction p as [|c p IH]; intros H; simpl; [reflexivity|].
  destruct (c =? sep)%N eqn:E.
  - apply N.eqb_eq in E. exfalso. apply H. left. exact E.
  - rewrite IH by (intros Hin; apply H; right; exact Hin). reflexivity.
Qed.

Lemma split_at_sep (sep : N) (p rest : jsstring) :
  free sep p -> split sep (p ++ sep :: rest) = p :: split sep rest.
Proof.
  unfold free. induction p as [|c p IH]; intros H; simpl.
  - rewrite N.eqb_refl. reflexivity.
  - destruct (c =? sep)%N eqn:E.
    + apply N.eqb_eq in E. exfalso. apply H. left. exact E.
    + rewrite IH by (intros Hin; apply H; right; exact Hin). reflexivity.
Qed.

Lemma split_join (sep : N) (parts : list jsstring) :
  parts <> [] -> Forall (free sep) parts -> split sep (join [sep] parts) = parts.
Proof.
  induction parts as [|p ps IH]; intros Hne Hfree; [congruence|].
  inversion Hfree as [|? ? Hp Hps]; subst.
  destruct ps as [|q ps].
  - simpl. apply split_whole, Hp.
  - rewrite join_cons by discriminate. cbn [app].
    rewrite split_at_sep by exact Hp. f_equal. apply IH; [discriminate | exact Hps].
Qed.



(** ** Writing a field and reading it back *)













(** * The rest of the script *)

(** ** Tests for the side conditions *)

Lemma freeb_spec (c : N) (s : jsstring) : freeb c s = true -> free c s.
Proof.
  unfold freeb, free. intros H Hin. apply negb_true_iff in H.
  assert (Hex : existsb (N.eqb c) s = true).
  { apply existsb_exists. exists c. split; [exact Hin | apply N.eqb_refl]. }
  congruence.
Qed.

Lemma forallb_freeb (c : N) (lines : list jsstring) :
  forallb (freeb c) lines = true -> Forall (free c) lines.
Proof.
  intros H. apply List.Forall_forall. intros line Hline.
  rewrite forallb_forall in H. apply freeb_spec, H, Hline.
Qed.

(** ** Where the header ends *)

Lemma matchFrontmatter_wellFormed (header' body' : jsstring) :
  header' <> [] ->
  exists header body,
    matchFrontmatter (DELIM_OPEN ++ header' ++ DELIM_CLOSE ++ body') = Some (header, body)
    /\ (length header <= length header')%nat.
Proof.
  intros Hne. unfold matchFrontmatter.
  rewrite startsWith_app, drop_app_length.
  destruct header' as [|c t]; [congruence|].
  rewrite <- app_comm_cons. cbv beta iota.
  destruct (lazyUntilClose (t ++ DELIM_CLOSE ++ body')) as [[h r]|] eqn:E.
  - exists (c :: h), r. split; [reflexivity|].
    simpl. apply le_n_S. exact (lazyUntilClose_shortest _ _ _ E t body' eq_refl).
  - exfalso. exact (lazyUntilClose_None _ E t body' eq_refl).
Qed.

(** X1.  A text made of the opening delimiter line, a non-empty header, a
    closing delimiter line and a rest always has a header for the parser,
    and the parser cuts it at the first closing delimiter line: it returns
    the fields of a header and a body that, put between the delimiters
    again, give the text back, and no other cut has a shorter header.  The
    body is returned as it stands. *)
Theorem X1_header_ends_at_first_delimiter (header' body' : jsstring) :
  header' <> [] ->
  exists header body,
    parseText (DELIM_OPEN ++ header' ++ DELIM_CLOSE ++ body')
    = (Some (parseHeader header), body)
    /\ header <> []
    /\ DELIM_OPEN ++ header ++ DELIM_CLOSE ++ body
       = DELIM_OPEN ++ header' ++ DELIM_CLOSE ++ body'
    /\ (length header <= length header')%nat.
Proof.
  intros Hne.
  destruct (matchFrontmatter_wellFormed header' body' Hne) as (header & body & Hm & Hlen).
  exists header, body. unfold parseText. rewrite Hm.
  apply matchFrontmatter_Some in Hm as [Hh Heq].
  repeat split; [exact Hh | symmetry; exact Heq | exact Hlen].
Qed.

Lemma X1_header_ends_at_first_delimiter_witness :
  exists header body,
    parseText (DELIM_OPEN
                 ++ unlines [js "title: A"; js "---"; js "date: B"]
                 ++ DELIM_CLOSE ++ js "text")
    = (Some (parseHeader header), body)
    /\ header <> []
    /\ DELIM_OPEN ++ header ++ DELIM_CLOSE ++ body
       = DELIM_OPEN ++ unlines [js "title: A"; js "---"; js "date: B"]
           ++ DELIM_CLOSE ++ js "text"
    /\ (length header <= length (unlines [js "title: A"; js "---"; js "date: B"]))%nat.
Proof.
  apply (X1_header_ends_at_first_delimiter
           (unlines [js "title: A"; js "---"; js "date: B"]) (js "text")).
  vm_compute. discriminate.
Defined.

(** ** Headers without a field *)

Lemma split_pieces_free (sep c : N) (s : jsstring) :
  free c s -> Forall (free c) (split sep s).
Proof.
  intros H. apply List.Forall_forall. intros piece Hp Hin.
  exact (H (split_incl _ _ _ _ Hp Hin)).
Qed.

Lemma parseLines_no_colon (lines : list jsstring) (fm : frontmatter) :
  Forall (free COLON) lines -> fold_left parseLine lines fm = fm.
Proof.
  revert fm. induction lines as [|line lines IH]; intros fm H; [reflexivity|].
  inversion H as [|? ? Hline Hrest]; subst. simpl.
  rewrite parseLine_no_colon by exact Hline. apply IH, Hrest.
Qed.

(** X2.  A header in which no colon occurs gives a mapping that is there
    and is empty, not [null]: the document is then reported for its missing
    title and date (a blog post) and not for missing frontmatter. *)
Theorem X2_header_without_colon (P : platform) (fs : filesystem)
    (header rest filename : jsstring) (l : log) :
  header <> [] -> free COLON header ->
  parseHeader header = ∅
  /\ exists body,
       parseText (DELIM_OPEN ++ header ++ DELIM_CLOSE ++ rest) = (Some ∅, body)
       /\ newErrors (validateBlogPost P fs
                       (Some (DELIM_OPEN ++ header ++ DELIM_CLOSE ++ rest)) filename) l
          = [filename ++ js ": Missing required field 'title'";
             filename ++ js ": Missing required field 'date'"].
Proof.
  intros Hne Hcolon.
  assert (Hempty : forall h, free COLON h -> parseHeader h = ∅).
  { intros h Hh. apply parseLines_no_colon, split_pieces_free, Hh. }
  split; [apply Hempty, Hcolon|].
  destruct (matchFrontmatter_wellFormed header rest Hne) as (h0 & body & Hm & Hlen).
  assert (Hprefix : h0 = take (length h0) header).
  { apply matchFrontmatter_Some in Hm as [_ Heq].
    apply app_inv_head in Heq.
    apply (f_equal (take (length h0))) in Heq.
    rewrite take_app_le in Heq by exact Hlen.
    rewrite take_app_length in Heq. symmetry. exact Heq. }
  assert (Hfree : free COLON h0).
  { intros Hin. apply Hcolon. rewrite Hprefix in Hin.
    apply list_elem_of_In in Hin. apply list_elem_of_In.
    apply elem_of_take in Hin as (i & Hi & _).
    apply list_elem_of_lookup. eexists. exact Hi. }
  assert (Hparse : parseText (DELIM_OPEN ++ header ++ DELIM_CLOSE ++ rest) = (Some ∅, body)).
  { unfold parseText. rewrite Hm, (Hempty h0 Hfree). reflexivity. }
  exists body. split; [exact Hparse|].
  rewrite (proj1 (new_blog P fs _ body filename ∅ l Hparse)).
  reflexivity.
Qed.

Lemma X2_header_without_colon_witness :
  parseHeader (unlines [js "just some text"; js "and more"]) = ∅
  /\ exists body,
       parseText (DELIM_OPEN ++ unlines [js "just some text"; js "and more"]
                    ++ DELIM_CLOSE ++ js "text")
       = (Some ∅, body)
       /\ newErrors (validateBlogPost lenient (site None None)
                       (Some (DELIM_OPEN ++ unlines [js "just some text"; js "and more"]
                                ++ DELIM_CLOSE ++ js "text"))
                       (js "blog/a.md")) emptyLog
          = [js "blog/a.md" ++ js ": Missing required field 'title'";
             js "blog/a.md" ++ js ": Missing required field 'date'"].
Proof.
  apply (X2_header_without_colon lenient (site None None)
           (unlines [js "just some text"; js "and more"]) (js "text")
           (js "blog/a.md") emptyLog).
  - vm_compute. discriminate.
  - apply freeb_spec. vm_compute. reflexivity.
Defined.

(** ** Which line decides a field *)

(** X3.  In a header written line by line, a line with a colon assigns to
    the name before its first colon, and among the lines that assign to one
    name (other than [__proto__]) the last one decides: its value is what
    follows its first colon, later colons included. *)
Theorem X3_last_line_decides (before after : list jsstring) (a b : jsstring) :
  Forall (free LF) (before ++ (a ++ COLON :: b) :: after) ->
  free COLON a ->
  trim a <> PROTO ->
  Forall (fun line => lineKey line <> Some (trim a)) after ->
  lineKey (a ++ COLON :: b) = Some (trim a)
  /\ parseHeader (join [LF] (before ++ (a ++ COLON :: b) :: after)) !! trim a
     = Some (parseValue b).
Proof.
  intros Hlines Ha Hproto Hafter.
  split; [apply lineKey_first_colon, Ha|].
  unfold parseHeader. rewrite split_join.
  - apply parseLines_last_wins; assumption.
  - destruct before; discriminate.
  - exact Hlines.
Qed.

Lemma X3_last_line_decides_witness :
  lineKey (js "time" ++ COLON :: js " 10:30") = Some (trim (js "time"))
  /\ parseHeader (join [LF] ([js "time: 9:00"; js "title: T"]
                              ++ (js "time" ++ COLON :: js " 10:30") :: [js "date: D"]))
     !! trim (js "time")
     = Some (parseValue (js " 10:30")).
Proof.
  apply (X3_last_line_decides [js "time: 9:00"; js "title: T"] [js "date: D"]
           (js "time") (js " 10:30")).
  - apply forallb_freeb. vm_compute. reflexivity.
  - apply freeb_spec. vm_compute. reflexivity.
  - vm_compute. discriminate.
  - repeat constructor. vm_compute. discriminate.
Defined.

(** ** The shape of what is stored *)

(** X4.  Whatever the header, every field the parser stores has a name
    that is trimmed, holds no colon and no newline and is not [__proto__];
    a string value holds no newline and is never a text between brackets;
    an array has at least one element, and no element holds a comma or a
    newline. *)
Theorem X4_stored_fields_shape (header k : jsstring) (v : value) :
  parseHeader header !! k = Some v ->
  k <> PROTO /\ free COLON k /\ free LF k /\ trim k = k
  /\ match v with
     | VStr s => free LF s /\ isBracketed s = false
     | VList items =>
         items <> [] /\ Forall (fun e => free COMMA e /\ free LF e) items
     end.
Proof. intros Hk. exact (parseHeader_wf header k v Hk). Qed.

Lemma X4_stored_fields_shape_witness :
  js "tags" <> PROTO /\ free COLON (js "tags") /\ free LF (js "tags")
  /\ trim (js "tags") = js "tags"
  /\ [js "a"; js "b"] <> []
  /\ Forall (fun e => free COMMA e /\ free LF e) [js "a"; js "b"].
Proof.
  apply (X4_stored_fields_shape (js "  tags : [a, b]") (js "tags")
           (VList [js "a"; js "b"])).
  vm_compute. reflexivity.
Defined.

(** ** Quotes around brackets *)

Lemma isQuote_not_space (q : N) : isQuote q = true -> isWhiteSpace q = false.
Proof.
  unfold isQuote. intros H. apply orb_true_iff in H as [H|H];
    apply N.eqb_eq in H; subst q; reflexivity.
Qed.

(** X5.  Quotes do not keep a bracketed text from being a list: the
    quotes are stripped before the brackets are looked at, so a quoted
    [[a, b]] is the same list as the bare one. *)
Theorem X5_quoted_brackets_are_a_list (q1 q2 : N) (inner : jsstring) :
  isQuote q1 = true -> isQuote q2 = true ->
  parseValue (q1 :: [LBRACKET] ++ inner ++ [RBRACKET] ++ [q2])
  = parseValue ([LBRACKET] ++ inner ++ [RBRACKET])
  /\ parseValue (q1 :: [LBRACKET] ++ inner ++ [RBRACKET] ++ [q2])
     = VList (map (fun e => stripQuotes (trim e)) (split COMMA inner)).
Proof.
  intros H1 H2.
  assert (Hq : parseValue (q1 :: [LBRACKET] ++ inner ++ [RBRACKET] ++ [q2])
               = VList (map (fun e => stripQuotes (trim e)) (split COMMA inner))).
  { apply parseValue_list.
    replace (q1 :: [LBRACKET] ++ inner ++ [RBRACKET] ++ [q2])
      with (q1 :: ([LBRACKET] ++ inner ++ [RBRACKET]) ++ [q2])
      by (rewrite <- !app_assoc; reflexivity).
    rewrite trim_fixed.
    - apply stripQuotes_both; assumption.
    - apply isQuote_not_space, H1.
    - rewrite app_comm_cons, last_snoc. apply isQuote_not_space, H2. }
  split; [|exact Hq]. rewrite Hq. symmetry. apply parseValue_list.
  rewrite trim_fixed.
  - apply stripQuotes_none; [reflexivity|].
    cbn [app]. rewrite app_comm_cons, endsWithQuote_snoc. reflexivity.
  - reflexivity.
  - cbn [app]. rewrite app_comm_cons, last_snoc. reflexivity.
Qed.

Lemma X5_quoted_brackets_are_a_list_witness :
  parseValue (DQUOTE :: [LBRACKET] ++ js "a, b" ++ [RBRACKET] ++ [DQUOTE])
  = parseValue ([LBRACKET] ++ js "a, b" ++ [RBRACKET])
  /\ parseValue (DQUOTE :: [LBRACKET] ++ js "a, b" ++ [RBRACKET] ++ [DQUOTE])
     = VList (map (fun e => stripQuotes (trim e)) (split COMMA (js "a, b"))).
Proof.
  apply (X5_quoted_brackets_are_a_list DQUOTE DQUOTE (js "a, b")); reflexivity.
Defined.

(** ** Documents without a header *)

(** X6.  For a text without a well-formed header both validators record
    exactly one error, that the frontmatter is missing or invalid, record
    no warning, and return: no other rule is looked at, whatever the text
    holds. *)
Theorem X6_no_header_one_error (P : platform) (fs : filesystem)
    (content filename : jsstring) (l : log) :
  ~ wellFormed content ->
  validateBlogPost P fs (Some content) filename l
  = Returned tt {| errors := errors l ++ [filename ++ js ": Missing or invalid frontmatter"];
                   warnings := warnings l |}
  /\ validateProject P fs (Some content) filename l
     = Returned tt {| errors := errors l ++ [filename ++ js ": Missing or invalid frontmatter"];
                      warnings := warnings l |}.
Proof.
  intros H. apply matchFrontmatter_None in H.
  apply validate_no_header. unfold parseText. rewrite H. reflexivity.
Qed.

Lemma X6_no_header_one_error_witness :
  validateBlogPost lenient (site None None) (Some (js "title: no delimiters"))
    (js "blog/a.md") emptyLog
  = Returned tt {| errors := errors emptyLog
                             ++ [js "blog/a.md" ++ js ": Missing or invalid frontmatter"];
                   warnings := warnings emptyLog |}
  /\ validateProject lenient (site None None) (Some (js "title: no delimiters"))
       (js "blog/a.md") emptyLog
     = Returned tt {| errors := errors emptyLog
                                ++ [js "blog/a.md" ++ js ": Missing or invalid frontmatter"];
                      warnings := warnings emptyLog |}.
Proof.
  apply (X6_no_header_one_error lenient (site None None) (js "title: no delimiters")
           (js "blog/a.md") emptyLog).
  apply matchFrontmatter_None. vm_compute. reflexivity.
Defined.

(** ** When a validator throws *)

Lemma parseText_cases (content : jsstring) :
  (exists fm body, parseText content = (Some fm, body))
  \/ parseText content = (None, content).
Proof.
  destruct (parseText content) as [[fm|] body] eqn:E.
  - left. exists fm, body. reflexivity.
  - right. apply parseText_None_body in E as Hb. subst body. reflexivity.
Qed.

(** X7.  On a file that can be read, a validator is left by an exception
    exactly when the header parses and its [image] is an array (the path
    join refuses it); in every other case it returns. *)
Theorem X7_throws_iff_image_is_array (P : platform) (fs : filesystem)
    (content filename : jsstring) (l : log) :
  ((exists l', validateBlogPost P fs (Some content) filename l = Thrown l')
   <-> exists fm body, parseText content = (Some fm, body)
                       /\ isArray (getField fm "image") = true)
  /\ ((exists l', validateProject P fs (Some content) filename l = Thrown l')
      <-> exists fm body, parseText content = (Some fm, body)
                          /\ isArray (getField fm "image") = true).
Proof.
  destruct (parseText_cases content) as [(fm & body & Hparse)|Hparse].
  - rewrite (validateBlogPost_header P fs content body filename fm l Hparse).
    rewrite (validateProject_header P fs content body filename fm l Hparse).
    unfold imageThrows.
    destruct (isArray (getField fm "image")) eqn:Harr; split; split.
    + intros _. exists fm, body. split; assumption.
    + intros _. eexists. reflexivity.
    + intros _. exists fm, body. split; assumption.
    + intros _. eexists. reflexivity.
    + intros [l' H]. discriminate H.
    + intros (fm' & body' & H' & Harr'). congruence.
    + intros [l' H]. discriminate H.
    + intros (fm' & body' & H' & Harr'). congruence.
  - destruct (validate_no_header P fs content filename l Hparse) as [-> ->].
    split; split.
    + intros [l' H]. discriminate H.
    + intros (fm' & body' & H' & _). congruence.
    + intros [l' H]. discriminate H.
    + intros (fm' & body' & H' & _). congruence.
Qed.

(** ** Documents without findings *)

Lemma app_eq_self_nil {A} (l es : list A) : l ++ es = l -> es = [].
Proof.
  intros H. rewrite <- (app_nil_r l) in H at 2. exact (app_inv_head _ _ _ H).
Qed.

Lemma rule_nil (c : bool) (msg : jsstring) : rule c msg = [] <-> c = false.
Proof. destruct c; simpl; split; congruence. Qed.

Lemma imageNotFound_nil (fs : filesystem) (fm : frontmatter) (filename : jsstring) :
  imageThrows fm = false ->
  (imageNotFound fs fm filename = [] <-> imageResolves fs fm = true).
Proof.
  unfold imageThrows, imageNotFound, imageResolves. intros Harr.
  rewrite rule_nil, Harr. cbn [negb andb].
  destruct (truthy (getField fm "image")),
           (imageExists fs (toStr (getField fm "image")));
    simpl; split; congruence.
Qed.

Lemma imageResolves_no_throw (fs : filesystem) (fm : frontmatter) :
  imageResolves fs fm = true -> imageThrows fm = false.
Proof.
  unfold imageResolves, imageThrows.
  destruct (getField fm "image") as [[[|c s]|items]|]; simpl; congruence.
Qed.

Lemma log_unchanged (l : log) (es ws : list jsstring) :
  {| errors := errors l ++ es; warnings := warnings l ++ ws |} = l
  <-> es = [] /\ ws = [].
Proof.
  destruct l as [e w]. simpl. split.
  - intros [= He Hw]. split; eapply app_eq_self_nil; eassumption.
  - intros [-> ->]. rewrite !app_nil_r. reflexivity.
Qed.

Lemma validateBlogPost_clean (P : platform) (fs : filesystem)
    (content body filename : jsstring) (fm : frontmatter) (l : log) :
  parseText content = (Some fm, body) ->
  (validateBlogPost P fs (Some content) filename l = Returned tt l
   <-> blogClean P fs fm body = true).
Proof.
  intros Hparse.
  rewrite (validateBlogPost_header P fs content body filename fm l Hparse).
  pose proof (parseText_listsNonEmpty _ _ _ Hparse) as Hne.
  unfold blogClean. rewrite !andb_true_iff. split.
  - destruct (imageThrows fm) eqn:Hthrow; [discriminate|].
    intros [= Hlog]. apply log_unchanged in Hlog as [He Hw].
    unfold blogErrors in He. unfold blogWarnings in Hw. rewrite Hthrow in Hw.
    apply app_eq_nil in He as [He1 He]. apply app_eq_nil in He as [He2 He3].
    apply app_eq_nil in Hw as [Hw1 Hw]. apply app_eq_nil in Hw as [Hw2 Hw].
    apply app_eq_nil in Hw as [Hw3 _].
    apply rule_nil in He1, He2, He3, Hw1, Hw3.
    apply (imageNotFound_nil fs fm filename Hthrow) in Hw2.
    apply negb_false_iff in He1, He2, Hw1. rewrite He2 in He3. simpl in He3.
    apply negb_false_iff in He3. apply Nat.ltb_ge in Hw3.
    repeat split; try assumption. apply Nat.leb_le, Hw3.
  - intros [[[[[Ht Hd] Hp] Hx] Hi] Hb].
    rewrite (imageResolves_no_throw fs fm Hi). f_equal. apply log_unchanged.
    unfold blogErrors, blogWarnings.
    rewrite (imageResolves_no_throw fs fm Hi).
    rewrite (proj2 (imageNotFound_nil fs fm filename (imageResolves_no_throw fs fm Hi)) Hi).
    rewrite Ht, Hd, Hp, Hx, (emptyArray_parsed fm "tags" Hne), !andb_false_r.
    apply Nat.leb_le in Hb.
    replace (length (trim body) <? 100)%nat with false
      by (symmetry; apply Nat.ltb_ge; exact Hb).
    split; reflexivity.
Qed.

(** X8.  A blog post with a header passes without any finding (the
    validator returns and the accumulators are as before) exactly when it
    has a truthy title, a truthy date that the date parser accepts, a
    truthy excerpt, either no image or an image path that exists, and a
    trimmed body of at least 100 characters. *)
Theorem X8_clean_blog_post (P : platform) (fs : filesystem)
    (content body filename : jsstring) (fm : frontmatter) (l : log) :
  parseText content = (Some fm, body) ->
  (validateBlogPost P fs (Some content) filename l = Returned tt l
   <-> blogClean P fs fm body = true).
Proof. apply validateBlogPost_clean. Qed.

Lemma X8_clean_blog_post_witness :
  validateBlogPost lenient (site None None)
    (Some (unlines [js "---"; js "title: T"; js "date: 2024-01-01"; js "excerpt: E";
                    js "---"; repeat 120%N 100]))
    (js "blog/a.md") emptyLog
  = Returned tt emptyLog.
Proof.
  refine (proj2 (X8_clean_blog_post lenient (site None None) _ (repeat 120%N 100)
                   (js "blog/a.md")
                   (<[js "excerpt" := VStr (js "E")]>
                      (<[js "date" := VStr (js "2024-01-01")]>
                         (<[js "title" := VStr (js "T")]> ∅)))
                   emptyLog _) _);
    vm_compute; reflexivity.
Defined.

Lemma validateProject_clean (P : platform) (fs : filesystem)
    (content body filename : jsstring) (fm : frontmatter) (l : log) :
  parseText content = (Some fm, body) ->
  (validateProject P fs (Some content) filename l = Returned tt l
   <-> projectClean P fs fm body = true).
Proof.
  intros Hparse.
  rewrite (validateProject_header P fs content body filename fm l Hparse).
  pose proof (parseText_listsNonEmpty _ _ _ Hparse) as Hne.
  assert (Htech : (negb (truthy (getField fm "technologies"))
                   || negb (isArray (getField fm "technologies"))
                   || emptyArray (getField fm "technologies"))
                  = negb (isArray (getField fm "technologies"))).
  { rewrite (emptyArray_parsed fm "technologies" Hne), orb_false_r.
    destruct (getField fm "technologies") as [[[|c s]|items]|]; reflexivity. }
  unfold projectClean. rewrite !andb_true_iff. split.
  - destruct (imageThrows fm) eqn:Hthrow; [discriminate|].
    intros [= Hlog]. apply log_unchanged in Hlog as [He Hw].
    unfold projectErrors in He. unfold projectWarnings in Hw.
    rewrite Hthrow in He, Hw. rewrite Htech in Hw.
    apply app_eq_nil in He as [He1 He]. apply app_eq_nil in He as [He2 He].
    apply app_eq_nil in He as [He3 He4].
    apply app_eq_nil in Hw as [Hw1 Hw]. apply app_eq_nil in Hw as [Hw2 Hw].
    apply app_eq_nil in Hw as [Hw3 Hw4].
    apply rule_nil in He1, He2, He3, He4, Hw1, Hw3, Hw4.
    apply negb_false_iff in He1, He2, Hw1. apply Nat.ltb_ge in Hw4.
    destruct (truthy (getField fm "image")) eqn:Himg; [|discriminate Hw2].
    apply (imageNotFound_nil fs fm filename Hthrow) in Hw2.
    repeat split; try assumption.
    + destruct (truthy (getField fm "demo_url")), (truthy (getField fm "github_url"));
        simpl in *; congruence.
    + destruct (truthy (getField fm "demo_url")),
               (isValidUrl P (getField fm "demo_url")); simpl in *; congruence.
    + destruct (truthy (getField fm "github_url")),
               (isValidUrl P (getField fm "github_url")); simpl in *; congruence.
    + apply Nat.leb_le, Hw4.
  - intros [[[[[[[[Ht Hd] Hk] Him] Hi] Hu] Hdu] Hgu] Hb].
    rewrite (imageResolves_no_throw fs fm Hi). f_equal. apply log_unchanged.
    unfold projectErrors, projectWarnings.
    rewrite Htech, (imageResolves_no_throw fs fm Hi), Him.
    rewrite (proj2 (imageNotFound_nil fs fm filename (imageResolves_no_throw fs fm Hi)) Hi).
    rewrite Ht, Hd, Hk.
    apply Nat.leb_le in Hb.
    replace (length (trim body) <? 200)%nat with false
      by (symmetry; apply Nat.ltb_ge; exact Hb).
    destruct (truthy (getField fm "demo_url")), (truthy (getField fm "github_url")),
             (isValidUrl P (getField fm "demo_url")),
             (isValidUrl P (getField fm "github_url"));
      simpl in *; try discriminate; split; reflexivity.
Qed.

(** X9.  A project with a header passes without any finding exactly when
    it has a truthy title and description, an array of technologies, an
    image path that exists, at least one of the two URLs, no URL that is
    given and fails the validation, and a trimmed body of at least 200
    characters. *)
Theorem X9_clean_project (P : platform) (fs : filesystem)
    (content body filename : jsstring) (fm : frontmatter) (l : log) :
  parseText content = (Some fm, body) ->
  (validateProject P fs (Some content) filename l = Returned tt l
   <-> projectClean P fs fm body = true).
Proof. apply validateProject_clean. Qed.

Lemma X9_clean_project_witness :
  validateProject lenient gallery
    (Some (unlines [js "---"; js "title: T"; js "description: D";
                    js "technologies: [rocq]"; js "image: /i.png";
                    js "demo_url: https://example.org"; js "---"; repeat 120%N 200]))
    (js "projects/p.md") emptyLog
  = Returned tt emptyLog.
Proof.
  refine (proj2 (X9_clean_project lenient gallery _ (repeat 120%N 200)
                   (js "projects/p.md")
                   (<[js "demo_url" := VStr (js "https://example.org")]>
                      (<[js "image" := VStr (js "/i.png")]>
                         (<[js "technologies" := VList [js "rocq"]]>
                            (<[js "description" := VStr (js "D")]>
                               (<[js "title" := VStr (js "T")]> ∅)))))
                   emptyLog _) _);
    vm_compute; reflexivity.
Defined.

(** ** The findings of one document *)

Lemma length_rule (c : bool) (msg : jsstring) : (length (rule c msg) <= 1)%nat.
Proof. destruct c; simpl; lia. Qed.

Lemma new_unreadable (P : platform) (fs : filesystem) (filename : jsstring) (l : log) :
  newErrors (validateBlogPost P fs None filename) l = []
  /\ newWarnings (validateBlogPost P fs None filename) l = []
  /\ newErrors (validateProject P fs None filename) l = []
  /\ newWarnings (validateProject P fs None filename) l = [].
Proof.
  unfold newErrors, newWarnings. cbn. rewrite !drop_all. repeat split.
Qed.

Lemma new_no_header (P : platform) (fs : filesystem) (content filename : jsstring)
    (l : log) :
  parseText content = (None, content) ->
  newErrors (validateBlogPost P fs (Some content) filename) l
  = [filename ++ js ": Missing or invalid frontmatter"]
  /\ newWarnings (validateBlogPost P fs (Some content) filename) l = []
  /\ newErrors (validateProject P fs (Some content) filename) l
     = [filename ++ js ": Missing or invalid frontmatter"]
  /\ newWarnings (validateProject P fs (Some content) filename) l = [].
Proof.
  intros Hparse. unfold newErrors, newWarnings.
  destruct (validate_no_header P fs content filename l Hparse) as [-> ->].
  cbn [logOf errors warnings]. rewrite !drop_app_length, !drop_all. repeat split.
Qed.

Lemma in_blogErrors (P : platform) (fm : frontmatter) (filename m : jsstring) :
  In m (blogErrors P fm filename) <->
  (truthy (getField fm "title") = false
   /\ m = filename ++ js ": Missing required field 'title'")
  \/ (truthy (getField fm "date") = false
      /\ m = filename ++ js ": Missing required field 'date'")
  \/ (truthy (getField fm "date") = true
      /\ dateParses P (toStr (getField fm "date")) = false
      /\ m = filename ++ js ": Invalid date format '"
               ++ toStr (getField fm "date") ++ js "'").
Proof.
  unfold blogErrors. rewrite !in_app_iff, !in_rule_iff.
  rewrite andb_true_iff, !negb_true_iff. tauto.
Qed.

Lemma in_projectErrors (P : platform) (fm : frontmatter) (filename m : jsstring) :
  In m (projectErrors P fm filename) <->
  (truthy (getField fm "title") = false
   /\ m = filename ++ js ": Missing required field 'title'")
  \/ (truthy (getField fm "description") = false
      /\ m = filename ++ js ": Missing required field 'description'")
  \/ (imageThrows fm = false
      /\ truthy (getField fm "demo_url") = true
      /\ isValidUrl P (getField fm "demo_url") = false
      /\ m = filename ++ js ": Invalid demo_url: " ++ toStr (getField fm "demo_url"))
  \/ (imageThrows fm = false
      /\ truthy (getField fm "github_url") = true
      /\ isValidUrl P (getField fm "github_url") = false
      /\ m = filename ++ js ": Invalid github_url: "
               ++ toStr (getField fm "github_url")).
Proof.
  unfold projectErrors. rewrite !in_app_iff, !in_rule_iff.
  destruct (imageThrows fm).
  - rewrite !negb_true_iff. simpl. intuition congruence.
  - rewrite !in_app_iff, !in_rule_iff, !andb_true_iff, !negb_true_iff. tauto.
Qed.

Lemma in_blogWarnings (fs : filesystem) (fm : frontmatter)
    (body filename m : jsstring) :
  listsNonEmpty fm ->
  (In m (blogWarnings fs fm body filename) <->
   (truthy (getField fm "excerpt") = false
    /\ m = filename ++ js ": Missing 'excerpt' field (recommended)")
   \/ (imageThrows fm = false /\ In m (imageNotFound fs fm filename))
   \/ (imageThrows fm = false /\ (length (trim body) < 100)%nat
       /\ m = filename ++ js ": Content is very short ("
                ++ showNat (length (trim body)) ++ js " characters)")).
Proof.
  intros Hne. unfold blogWarnings.
  rewrite (emptyArray_parsed fm "tags" Hne), !andb_false_r.
  rewrite in_app_iff, in_rule_iff, negb_true_iff.
  destruct (imageThrows fm).
  - simpl. intuition congruence.
  - rewrite !in_app_iff, in_rule_iff, Nat.ltb_lt. simpl. tauto.
Qed.

Lemma in_projectWarnings (fs : filesystem) (fm : frontmatter)
    (body filename m : jsstring) :
  listsNonEmpty fm ->
  (In m (projectWarnings fs fm body filename) <->
   (isArray (getField fm "technologies") = false
    /\ m = filename ++ js ": No technologies listed")
   \/ (imageThrows fm = false /\ truthy (getField fm "image") = true
       /\ In m (imageNotFound fs fm filename))
   \/ (truthy (getField fm "image") = false
       /\ m = filename ++ js ": No featured image specified")
   \/ (imageThrows fm = false
       /\ truthy (getField fm "demo_url") = false
       /\ truthy (getField fm "github_url") = false
       /\ m = filename ++ js ": No demo or GitHub URL provided")
   \/ (imageThrows fm = false /\ (length (trim body) < 200)%nat
       /\ m = filename ++ js ": Project details are very short ("
                ++ showNat (length (trim body)) ++ js " characters)")).
Proof.
  intros Hne. unfold projectWarnings.
  assert (Htech : (negb (truthy (getField fm "technologies"))
                   || negb (isArray (getField fm "technologies"))
                   || emptyArray (getField fm "technologies"))
                  = negb (isArray (getField fm "technologies"))).
  { rewrite (emptyArray_parsed fm "technologies" Hne), orb_false_r.
    destruct (getField fm "technologies") as [[[|c s]|items]|]; reflexivity. }
  rewrite Htech, in_app_iff, in_rule_iff, negb_true_iff.
  destruct (imageThrows fm) eqn:Hthrow.
  - assert (Himg : truthy (getField fm "image") = true).
    { unfold imageThrows in Hthrow.
      destruct (getField fm "image") as [[|]|]; try discriminate. reflexivity. }
    rewrite Himg. simpl. intuition congruence.
  - rewrite !in_app_iff, !in_rule_iff, andb_true_iff, !negb_true_iff, Nat.ltb_lt.
    destruct (truthy (getField fm "image")); simpl; intuition congruence.
Qed.

Lemma length_rule_eq (c : bool) (msg : jsstring) :
  length (rule c msg) = if c then 1%nat else 0%nat.
Proof. destruct c; reflexivity. Qed.

Ltac count_rules :=
  rewrite ?length_app, ?length_rule_eq; cbn [length];
  repeat match goal with
         | |- context [if ?c then _ else _] => destruct c
         end;
  simpl; lia.

(** X10.  Whatever the file (unreadable, without a header, or with one), a
    blog post adds at most two errors and at most three warnings, a project
    at most four errors and at most four warnings. *)
Theorem X10_findings_per_document_are_bounded (P : platform) (fs : filesystem)
    (file : option jsstring) (filename : jsstring) (l : log) :
  (length (newErrors (validateBlogPost P fs file filename) l) <= 2)%nat
  /\ (length (newWarnings (validateBlogPost P fs file filename) l) <= 3)%nat
  /\ (length (newErrors (validateProject P fs file filename) l) <= 4)%nat
  /\ (length (newWarnings (validateProject P fs file filename) l) <= 4)%nat.
Proof.
  destruct file as [content|].
  - destruct (parseText_cases content) as [(fm & body & Hparse)|Hparse].
    + destruct (new_blog P fs content body filename fm l Hparse) as [-> ->].
      destruct (new_project P fs content body filename fm l Hparse) as [-> ->].
      pose proof (parseText_listsNonEmpty _ _ _ Hparse) as Hne.
      unfold blogErrors, blogWarnings, projectErrors, projectWarnings, imageNotFound.
      rewrite (emptyArray_parsed fm "tags" Hne), !andb_false_r.
      repeat split.
      * destruct (truthy (getField fm "date")); cbn [negb andb]; count_rules.
      * destruct (imageThrows fm); count_rules.
      * destruct (imageThrows fm); count_rules.
      * destruct (imageThrows fm); [count_rules|].
        destruct (truthy (getField fm "image")); count_rules.
    + destruct (new_no_header P fs content filename l Hparse) as (-> & -> & -> & ->).
      simpl. lia.
  - destruct (new_unreadable P fs filename l) as (-> & -> & -> & ->). simpl. lia.
Qed.

(** X11.  Findings that exclude one another.  A blog post is never
    reported both for a missing date and for an invalid date format; a
    project that is warned that it gives no demo or GitHub URL gets no error
    for an invalid URL. *)
Theorem X11_exclusive_findings (P : platform) (fs : filesystem)
    (content body filename : jsstring) (fm : frontmatter) (l : log) :
  parseText content = (Some fm, body) ->
  (In (filename ++ js ": Missing required field 'date'")
      (newErrors (validateBlogPost P fs (Some content) filename) l) ->
   forall shown, ~ In (filename ++ js ": Invalid date format '" ++ shown)
                      (newErrors (validateBlogPost P fs (Some content) filename) l))
  /\ (In (filename ++ js ": No demo or GitHub URL provided")
         (newWarnings (validateProject P fs (Some content) filename) l) ->
      forall shown,
        ~ In (filename ++ js ": Invalid demo_url: " ++ shown)
             (newErrors (validateProject P fs (Some content) filename) l)
        /\ ~ In (filename ++ js ": Invalid github_url: " ++ shown)
                (newErrors (validateProject P fs (Some content) filename) l)).
Proof.
  intros Hparse.
  destruct (new_blog P fs content body filename fm l Hparse) as [-> _].
  destruct (new_project P fs content body filename fm l Hparse) as [-> ->].
  pose proof (parseText_listsNonEmpty _ _ _ Hparse) as Hne.
  split.
  - intros Hmissing shown Hinvalid.
    apply in_blogErrors in Hmissing as [[_ H]|[[Hd _]|(_ & _ & H)]];
      try distinct_messages H.
    apply in_blogErrors in Hinvalid as [[_ H]|[[_ H]|(Hd' & _)]];
      try distinct_messages H.
    congruence.
  - intros Hwarn shown.
    apply (in_projectWarnings fs fm body filename _ Hne) in Hwarn
      as [[_ H]|[(_ & _ & Hin)|[[_ H]|[(_ & Hdemo & Hgithub & _)|(_ & _ & H)]]]];
      try distinct_messages H.
    + unfold imageNotFound in Hin. apply in_rule in Hin as [_ H]. distinct_messages H.
    + split; intros Herr;
        apply in_projectErrors in Herr
          as [[_ H]|[[_ H]|[(_ & Ht & _ & H)|(_ & Ht & _ & H)]]];
        try distinct_messages H; congruence.
Qed.

Lemma X11_exclusive_findings_witness :
  parseText titleOnly = (Some titleOnlyFields, js "text")
  /\ ~ In (js "blog/a.md" ++ js ": Invalid date format '" ++ js "soon'")
          (newErrors (validateBlogPost strict (site None None) (Some titleOnly)
                        (js "blog/a.md")) emptyLog).
Proof.
  split.
  - vm_compute. reflexivity.
  - refine (proj1 (X11_exclusive_findings strict (site None None) titleOnly (js "text")
                     (js "blog/a.md") titleOnlyFields emptyLog _) _ (js "soon'")).
    + vm_compute. reflexivity.
    + vm_compute. left. reflexivity.
Defined.

(** X12.  The length rule looks at the trimmed body and is strict: a blog
    post whose header parses (and whose image is no array) is warned about
    a very short content, with the length in the message, exactly when its
    trimmed body has fewer than 100 characters; a project exactly when it
    has fewer than 200. *)
Theorem X12_length_thresholds (P : platform) (fs : filesystem)
    (content body filename : jsstring) (fm : frontmatter) (l : log) :
  parseText content = (Some fm, body) ->
  isArray (getField fm "image") = false ->
  (In (filename ++ js ": Content is very short ("
         ++ showNat (length (trim body)) ++ js " characters)")
      (newWarnings (validateBlogPost P fs (Some content) filename) l)
   <-> (length (trim body) < 100)%nat)
  /\ (In (filename ++ js ": Project details are very short ("
            ++ showNat (length (trim body)) ++ js " characters)")
         (newWarnings (validateProject P fs (Some content) filename) l)
      <-> (length (trim body) < 200)%nat).
Proof.
  intros Hparse Harr.
  destruct (new_blog P fs content body filename fm l Hparse) as [_ ->].
  destruct (new_project P fs content body filename fm l Hparse) as [_ ->].
  pose proof (parseText_listsNonEmpty _ _ _ Hparse) as Hne.
  rewrite (in_blogWarnings fs fm body filename _ Hne).
  rewrite (in_projectWarnings fs fm body filename _ Hne).
  unfold imageNotFound. rewrite !in_rule_iff.
  split; split.
  - intros [[_ H]|[(_ & _ & H)|(_ & Hlen & _)]]; try distinct_messages H. exact Hlen.
  - intros Hlen. right; right. repeat split; assumption.
  - intros [[_ H]|[(_ & _ & _ & H)|[[_ H]|[(_ & _ & _ & H)|(_ & Hlen & _)]]]];
      try distinct_messages H. exact Hlen.
  - intros Hlen. right; right; right; right. repeat split; assumption.
Qed.

Lemma X12_length_thresholds_witness :
  (In (js "blog/a.md" ++ js ": Content is very short ("
         ++ showNat (length (trim (js "text"))) ++ js " characters)")
      (newWarnings (validateBlogPost lenient (site None None) (Some titleOnly)
                      (js "blog/a.md")) emptyLog)
   <-> (length (trim (js "text")) < 100)%nat)
  /\ (In (js "blog/a.md" ++ js ": Project details are very short ("
            ++ showNat (length (trim (js "text"))) ++ js " characters)")
         (newWarnings (validateProject lenient (site None None) (Some titleOnly)
                         (js "blog/a.md")) emptyLog)
      <-> (length (trim (js "text")) < 200)%nat).
Proof.
  apply (X12_length_thresholds lenient (site None None) titleOnly (js "text")
           (js "blog/a.md") titleOnlyFields emptyLog);
    vm_compute; reflexivity.
Defined.

(** X13.  Every finding of a document begins with the name the document
    is validated under, a colon and a space, whatever the file holds. *)
Theorem X13_findings_name_their_file (P : platform) (fs : filesystem)
    (file : option jsstring) (filename m : jsstring) (l : log) :
  In m (newErrors (validateBlogPost P fs file filename) l
        ++ newWarnings (validateBlogPost P fs file filename) l
        ++ newErrors (validateProject P fs file filename) l
        ++ newWarnings (validateProject P fs file filename) l) ->
  exists text, m = filename ++ js ": " ++ text.
Proof.
  destruct file as [content|].
  - destruct (parseText_cases content) as [(fm & body & Hparse)|Hparse].
    + destruct (new_blog P fs content body filename fm l Hparse) as [-> ->].
      destruct (new_project P fs content body filename fm l Hparse) as [-> ->].
      pose proof (parseText_listsNonEmpty _ _ _ Hparse) as Hne.
      rewrite !in_app_iff, in_blogErrors, in_projectErrors.
      rewrite (in_blogWarnings fs fm body filename _ Hne).
      rewrite (in_projectWarnings fs fm body filename _ Hne).
      unfold imageNotFound. rewrite !in_rule_iff.
      intros H.
      repeat match type of H with
             | _ \/ _ => destruct H as [H|H]
             | _ /\ _ => destruct H as [_ H]
             end;
        subst m; eexists; reflexivity.
    + destruct (new_no_header P fs content filename l Hparse) as (-> & -> & -> & ->).
      simpl. intros [<-|[<-|[]]]; eexists; reflexivity.
  - destruct (new_unreadable P fs filename l) as (-> & -> & -> & ->). intros [].
Qed.

Lemma X13_findings_name_their_file_witness :
  exists text,
    js "blog/a.md" ++ js ": Missing required field 'date'"
    = js "blog/a.md" ++ js ": " ++ text.
Proof.
  apply (X13_findings_name_their_file lenient (site None None) (Some titleOnly)
           (js "blog/a.md") _ emptyLog).
  vm_compute. left. reflexivity.
Defined.

(** ** Directories *)

Lemma section_missing (dir name none : jsstring) (f : entry -> M unit) (l : log) :
  (present ← checkDirectory dir None name;
   if negb present then mret tt
   else if (length (markdownFiles None) =? 0)%nat then pushWarning none
        else forEach (markdownFiles None) f) l
  = Returned tt {| errors := errors l ++ [name ++ js " directory not found: " ++ dir];
                   warnings := warnings l |}.
Proof. reflexivity. Qed.

Lemma section_empty (entries : list entry) (dir name none : jsstring)
    (f : entry -> M unit) (l : log) :
  markdownFiles (Some entries) = [] ->
  (present ← checkDirectory dir (Some entries) name;
   if negb present then mret tt
   else if (length (markdownFiles (Some entries)) =? 0)%nat then pushWarning none
        else forEach (markdownFiles (Some entries)) f) l
  = Returned tt {| errors := errors l; warnings := warnings l ++ [none] |}.
Proof.
  intros H. rewrite bind_apply. unfold checkDirectory, mret, M_ret, ret.
  cbv beta iota. cbn [negb]. rewrite H. reflexivity.
Qed.

(** X14.  A content directory that does not exist costs one error naming
    the directory and its path, and nothing else from that section; one
    that exists and lists no file ending in [.md] (it may list other files)
    costs one warning and no error.  The two sections do not depend on one
    another: with the blog directory missing, the projects are validated
    all the same, starting from that one error. *)
Theorem X14_missing_and_empty_directories (P : platform) (fs : filesystem) (l : log) :
  (blogDir fs = None ->
   validateBlogPosts P fs l
   = Returned tt {| errors := errors l
                              ++ [js "Blog" ++ js " directory not found: " ++ BLOG_DIR fs];
                    warnings := warnings l |})
  /\ (projectsDir fs = None ->
      validateProjects P fs l
      = Returned tt {| errors := errors l
                                 ++ [js "Projects" ++ js " directory not found: "
                                       ++ PROJECTS_DIR fs];
                       warnings := warnings l |})
  /\ (forall entries, blogDir fs = Some entries -> markdownFiles (Some entries) = [] ->
      validateBlogPosts P fs l
      = Returned tt {| errors := errors l;
                       warnings := warnings l ++ [js "No blog posts found"] |})
  /\ (forall entries, projectsDir fs = Some entries -> markdownFiles (Some entries) = [] ->
      validateProjects P fs l
      = Returned tt {| errors := errors l;
                       warnings := warnings l ++ [js "No projects found"] |})
  /\ (blogDir fs = None ->
      main P fs l
      = (validateProjects P fs ≫= fun _ => exitDecision)
          {| errors := errors l
                       ++ [js "Blog" ++ js " directory not found: " ++ BLOG_DIR fs];
             warnings := warnings l |}).
Proof.
  assert (Hb : blogDir fs = None ->
               validateBlogPosts P fs l
               = Returned tt {| errors := errors l
                                          ++ [js "Blog" ++ js " directory not found: "
                                                ++ BLOG_DIR fs];
                                warnings := warnings l |}).
  { intros H. unfold validateBlogPosts. rewrite H. apply section_missing. }
  split; [exact Hb|]. split; [|split; [|split]].
  - intros H. unfold validateProjects. rewrite H. apply section_missing.
  - intros entries H Hnone. unfold validateBlogPosts. rewrite H.
    apply section_empty, Hnone.
  - intros entries H Hnone. unfold validateProjects. rewrite H.
    apply section_empty, Hnone.
  - intros H. unfold main. rewrite bind_apply, (Hb H). reflexivity.
Qed.

Lemma X14_missing_and_empty_directories_witness :
  validateBlogPosts lenient (site None (Some [(js "notes.txt", None)])) emptyLog
  = Returned tt {| errors := errors emptyLog
                             ++ [js "Blog" ++ js " directory not found: "
                                   ++ BLOG_DIR (site None (Some [(js "notes.txt", None)]))];
                   warnings := warnings emptyLog |}
  /\ validateProjects lenient (site None (Some [(js "notes.txt", None)])) emptyLog
     = Returned tt {| errors := errors emptyLog;
                      warnings := warnings emptyLog ++ [js "No projects found"] |}.
Proof.
  destruct (X14_missing_and_empty_directories lenient
              (site None (Some [(js "notes.txt", None)])) emptyLog)
    as (Hblog & _ & _ & Hprojects & _).
  split.
  - apply Hblog. reflexivity.
  - apply (Hprojects [(js "notes.txt", None)]); vm_compute; reflexivity.
Defined.

Lemma markdownFiles_idempotent (listing : option (list entry)) :
  markdownFiles (Some (markdownFiles listing)) = markdownFiles listing.
Proof.
  unfold markdownFiles. cbn [from_option id].
  induction (default [] listing) as [|e es IH]; [reflexivity|].
  destruct (decide (endsWith (js ".md") e.1 = true)) as [He|He].
  - rewrite !filter_cons_True by exact He. f_equal. exact IH.
  - rewrite !filter_cons_False by exact He. exact IH.
Qed.

(** X15.  Entries whose names do not end in [.md] are never looked at:
    taking them out of a listing (unreadable ones too) changes nothing in
    what either section does. *)
Theorem X15_other_files_are_ignored (P : platform) (fs : filesystem)
    (entries : list entry) (l : log) :
  (blogDir fs = Some entries ->
   validateBlogPosts P fs l
   = validateBlogPosts P
       {| BLOG_DIR := BLOG_DIR fs; PROJECTS_DIR := PROJECTS_DIR fs;
          blogDir := Some (markdownFiles (Some entries));
          projectsDir := projectsDir fs; imageExists := imageExists fs |} l)
  /\ (projectsDir fs = Some entries ->
      validateProjects P fs l
      = validateProjects P
          {| BLOG_DIR := BLOG_DIR fs; PROJECTS_DIR := PROJECTS_DIR fs;
             blogDir := blogDir fs;
             projectsDir := Some (markdownFiles (Some entries));
             imageExists := imageExists fs |} l).
Proof.
  split; intros H.
  - unfold validateBlogPosts. cbn [BLOG_DIR blogDir]. rewrite H.
    rewrite markdownFiles_idempotent. reflexivity.
  - unfold validateProjects. cbn [PROJECTS_DIR projectsDir]. rewrite H.
    rewrite markdownFiles_idempotent. reflexivity.
Qed.

Lemma X15_other_files_are_ignored_witness :
  validateBlogPosts lenient
    (site (Some [(js "README", None); (js "hello.md", Some titleOnly)]) None) emptyLog
  = validateBlogPosts lenient
      {| BLOG_DIR := BLOG_DIR (site (Some [(js "README", None);
                                           (js "hello.md", Some titleOnly)]) None);
         PROJECTS_DIR := PROJECTS_DIR (site (Some [(js "README", None);
                                                   (js "hello.md", Some titleOnly)]) None);
         blogDir := Some (markdownFiles (Some [(js "README", None);
                                               (js "hello.md", Some titleOnly)]));
         projectsDir := projectsDir (site (Some [(js "README", None);
                                                 (js "hello.md", Some titleOnly)]) None);
         imageExists := imageExists (site (Some [(js "README", None);
                                                 (js "hello.md", Some titleOnly)]) None) |}
      emptyLog.
Proof.
  apply (proj1 (X15_other_files_are_ignored lenient
                  (site (Some [(js "README", None); (js "hello.md", Some titleOnly)]) None)
                  [(js "README", None); (js "hello.md", Some titleOnly)] emptyLog)).
  reflexivity.
Defined.

(** ** Documents one after the other *)

(** What a validator adds does not depend on what was recorded before. *)
Lemma validateBlogPost_frame (P : platform) (fs : filesystem)
    (file : option jsstring) (filename : jsstring) (l : log) :
  validateBlogPost P fs file filename l
  = match validateBlogPost P fs file filename emptyLog with
    | Returned a l0 =>
        Returned a {| errors := errors l ++ errors l0;
                      warnings := warnings l ++ warnings l0 |}
    | Thrown l0 =>
        Thrown {| errors := errors l ++ errors l0;
                  warnings := warnings l ++ warnings l0 |}
    end.
Proof.
  destruct file as [content|].
  - destruct (parseText_cases content) as [(fm & body & Hparse)|Hparse].
    + rewrite !(validateBlogPost_header P fs content body filename fm _ Hparse).
      destruct (imageThrows fm); reflexivity.
    + rewrite !(proj1 (validate_no_header P fs content filename _ Hparse)).
      unfold emptyLog. cbn [errors warnings app]. rewrite app_nil_r. reflexivity.
  - change (validateBlogPost P fs None filename l) with (@Thrown unit l).
    change (validateBlogPost P fs None filename emptyLog) with (@Thrown unit emptyLog).
    cbv beta iota. unfold emptyLog. cbn [errors warnings].
    rewrite !app_nil_r. destruct l; reflexivity.
Qed.

Lemma validateProject_frame (P : platform) (fs : filesystem)
    (file : option jsstring) (filename : jsstring) (l : log) :
  validateProject P fs file filename l
  = match validateProject P fs file filename emptyLog with
    | Returned a l0 =>
        Returned a {| errors := errors l ++ errors l0;
                      warnings := warnings l ++ warnings l0 |}
    | Thrown l0 =>
        Thrown {| errors := errors l ++ errors l0;
                  warnings := warnings l ++ warnings l0 |}
    end.
Proof.
  destruct file as [content|].
  - destruct (parseText_cases content) as [(fm & body & Hparse)|Hparse].
    + rewrite !(validateProject_header P fs content body filename fm _ Hparse).
      destruct (imageThrows fm); reflexivity.
    + rewrite !(proj2 (validate_no_header P fs content filename _ Hparse)).
      unfold emptyLog. cbn [errors warnings app]. rewrite app_nil_r. reflexivity.
  - change (validateProject P fs None filename l) with (@Thrown unit l).
    change (validateProject P fs None filename emptyLog) with (@Thrown unit emptyLog).
    cbv beta iota. unfold emptyLog. cbn [errors warnings].
    rewrite !app_nil_r. destruct l; reflexivity.
Qed.

(** A loop over files that all return: the findings of each, one after the
    other. *)
Lemma forEach_all_return (files : list entry) (f : entry -> M unit) (l : log) :
  (forall e l, f e l
               = match f e emptyLog with
                 | Returned a l0 =>
                     Returned a {| errors := errors l ++ errors l0;
                                   warnings := warnings l ++ warnings l0 |}
                 | Thrown l0 =>
                     Thrown {| errors := errors l ++ errors l0;
                               warnings := warnings l ++ warnings l0 |}
                 end) ->
  Forall (fun e => exists l0, f e emptyLog = Returned tt l0) files ->
  forEach files f l
  = Returned tt {| errors := errors l ++ concat (map (fun e => errors (logOf (f e emptyLog))) files);
                   warnings := warnings l
                               ++ concat (map (fun e => warnings (logOf (f e emptyLog))) files) |}.
Proof.
  intros Hframe Hfiles. revert l.
  induction Hfiles as [|e files [l0 He] _ IH]; intros l.
  - cbn. rewrite !app_nil_r. destruct l; reflexivity.
  - cbn [forEach map concat]. rewrite bind_apply, (Hframe e l), He. cbn [logOf].
    rewrite IH. cbn [errors warnings]. rewrite <- !app_assoc. reflexivity.
Qed.

(** A loop whose first files return and whose next one throws: the files
    after it are never reached. *)
Lemma forEach_stops (before after : list entry) (e : entry) (f : entry -> M unit)
    (l l1 l2 : log) :
  forEach before f l = Returned tt l1 -> f e l1 = Thrown l2 ->
  forEach (before ++ e :: after) f l = Thrown l2.
Proof.
  revert l. induction before as [|x before IH]; intros l Hbefore He.
  - cbn in Hbefore. injection Hbefore as <-.
    cbn [app forEach]. rewrite bind_apply, He. reflexivity.
  - cbn [app forEach] in *. rewrite bind_apply in *.
    destruct (f x l) as [[] lx|lx]; [|discriminate].
    apply IH; assumption.
Qed.

Lemma section_listing (entries : list entry) (dir name none : jsstring)
    (f : entry -> M unit) (l : log) :
  markdownFiles (Some entries) <> [] ->
  (present ← checkDirectory dir (Some entries) name;
   if negb present then mret tt
   else if (length (markdownFiles (Some entries)) =? 0)%nat then pushWarning none
        else forEach (markdownFiles (Some entries)) f) l
  = forEach (markdownFiles (Some entries)) f l.
Proof.
  intros H. rewrite bind_apply. unfold checkDirectory, mret, M_ret, ret.
  cbv beta iota. cbn [negb].
  destruct (markdownFiles (Some entries)); [congruence | reflexivity].
Qed.

(** X16.  When every markdown file of a directory can be read and none has
    an array as image, the section returns, and what it records is what
    each file records on its own, file after file in the order of the
    listing, appended to what was recorded before. *)
Theorem X16_findings_in_listing_order (P : platform) (fs : filesystem)
    (entries : list entry) (l : log) :
  markdownFiles (Some entries) <> [] ->
  Forall passable (markdownFiles (Some entries)) ->
  (blogDir fs = Some entries ->
   validateBlogPosts P fs l
   = Returned tt
       {| errors := errors l
                    ++ concat (map (fun e => errors (blogFindings P fs e))
                                   (markdownFiles (Some entries)));
          warnings := warnings l
                      ++ concat (map (fun e => warnings (blogFindings P fs e))
                                     (markdownFiles (Some entries))) |})
  /\ (projectsDir fs = Some entries ->
      validateProjects P fs l
      = Returned tt
          {| errors := errors l
                       ++ concat (map (fun e => errors (projectFindings P fs e))
                                      (markdownFiles (Some entries)));
             warnings := warnings l
                         ++ concat (map (fun e => warnings (projectFindings P fs e))
                                        (markdownFiles (Some entries))) |}).
Proof.
  intros Hne Hpass. split; intros Hdir.
  - unfold validateBlogPosts. rewrite Hdir, section_listing by exact Hne.
    apply (forEach_all_return _
             (fun e => validateBlogPost P fs e.2 (js "blog/" ++ e.1))).
    + intros e l'. apply validateBlogPost_frame.
    + eapply Forall_impl; [exact Hpass|]. intros e He.
      apply validateBlogPost_returns, He.
  - unfold validateProjects. rewrite Hdir, section_listing by exact Hne.
    apply (forEach_all_return _
             (fun e => validateProject P fs e.2 (js "projects/" ++ e.1))).
    + intros e l'. apply validateProject_frame.
    + eapply Forall_impl; [exact Hpass|]. intros e He.
      apply validateProject_returns, He.
Qed.

Lemma passable_check (e : entry) (content : jsstring) :
  e.2 = Some content ->
  match parseText content with
  | (Some fm, _) => imageThrows fm
  | (None, _) => false
  end = false ->
  passable e.
Proof.
  intros He Hcheck. exists content. split; [exact He|].
  intros fm body Hparse. rewrite Hparse in Hcheck. exact Hcheck.
Qed.

Lemma X16_findings_in_listing_order_witness :
  validateBlogPosts lenient
    (site (Some [(js "b.md", Some (js "no header")); (js "a.md", Some titleOnly)]) None)
    emptyLog
  = Returned tt
      {| errors := errors emptyLog
           ++ concat (map (fun e => errors (blogFindings lenient
                                    (site (Some [(js "b.md", Some (js "no header"));
                                                 (js "a.md", Some titleOnly)]) None) e))
                          (markdownFiles (Some [(js "b.md", Some (js "no header"));
                                                (js "a.md", Some titleOnly)])));
         warnings := warnings emptyLog
           ++ concat (map (fun e => warnings (blogFindings lenient
                                    (site (Some [(js "b.md", Some (js "no header"));
                                                 (js "a.md", Some titleOnly)]) None) e))
                          (markdownFiles (Some [(js "b.md", Some (js "no header"));
                                                (js "a.md", Some titleOnly)]))) |}.
Proof.
  refine (proj1 (X16_findings_in_listing_order lenient
                   (site (Some [(js "b.md", Some (js "no header"));
                                (js "a.md", Some titleOnly)]) None)
                   [(js "b.md", Some (js "no header")); (js "a.md", Some titleOnly)]
                   emptyLog _ _) _).
  - vm_compute. discriminate.
  - replace (markdownFiles (Some [(js "b.md", Some (js "no header"));
                                  (js "a.md", Some titleOnly)]))
      with [(js "b.md", Some (js "no header")); (js "a.md", Some titleOnly)]
      by (vm_compute; reflexivity).
    repeat constructor;
      (eapply passable_check; [reflexivity | vm_compute; reflexivity]).
  - reflexivity.
Defined.

(** X17.  An exception in the blog section ends the run there.  When the
    markdown files before some file all pass and that file makes its
    validator throw (it cannot be read, or its image is an array), the run
    ends with exit status 1 holding what those files recorded and what the
    failing one had recorded before it threw: the files listed after it
    and the whole projects section are never validated. *)
Theorem X17_exception_ends_the_run (P : platform) (fs : filesystem)
    (entries before after : list entry) (e : entry) (l2 : log) :
  blogDir fs = Some entries ->
  markdownFiles (Some entries) = before ++ e :: after ->
  Forall passable before ->
  validateBlogPost P fs e.2 (js "blog/" ++ e.1) emptyLog = Thrown l2 ->
  run P fs
  = Thrown {| errors := concat (map (fun x => errors (blogFindings P fs x)) before)
                        ++ errors l2;
              warnings := concat (map (fun x => warnings (blogFindings P fs x)) before)
                          ++ warnings l2 |}
  /\ exitCode (run P fs) = 1.
Proof.
  intros Hdir Hfiles Hpass Hthrow.
  assert (Hrun : run P fs
                 = Thrown {| errors := concat (map (fun x => errors (blogFindings P fs x)) before)
                                       ++ errors l2;
                             warnings := concat (map (fun x => warnings (blogFindings P fs x)) before)
                                         ++ warnings l2 |}).
  { unfold run, main. rewrite bind_apply.
    unfold validateBlogPosts. rewrite Hdir, section_listing
      by (rewrite Hfiles; destruct before; discriminate).
    rewrite Hfiles.
    erewrite forEach_stops; [reflexivity | |].
    - apply (forEach_all_return _
               (fun x => validateBlogPost P fs x.2 (js "blog/" ++ x.1))).
      + intros x l'. apply validateBlogPost_frame.
      + eapply Forall_impl; [exact Hpass|]. intros x Hx.
        apply validateBlogPost_returns, Hx.
    - rewrite validateBlogPost_frame, Hthrow. reflexivity. }
  split; [exact Hrun|]. rewrite Hrun. reflexivity.
Qed.

Lemma X17_exception_ends_the_run_witness :
  run lenient (site (Some [(js "a.md", Some titleOnly); (js "b.md", None);
                           (js "c.md", Some titleOnly)])
                    (Some [(js "p.md", Some titleOnly)]))
  = Thrown {| errors := concat (map (fun x => errors (blogFindings lenient
                                   (site (Some [(js "a.md", Some titleOnly); (js "b.md", None);
                                                (js "c.md", Some titleOnly)])
                                         (Some [(js "p.md", Some titleOnly)])) x))
                                    [(js "a.md", Some titleOnly)])
                        ++ errors emptyLog;
              warnings := concat (map (fun x => warnings (blogFindings lenient
                                   (site (Some [(js "a.md", Some titleOnly); (js "b.md", None);
                                                (js "c.md", Some titleOnly)])
                                         (Some [(js "p.md", Some titleOnly)])) x))
                                      [(js "a.md", Some titleOnly)])
                          ++ warnings emptyLog |}
  /\ exitCode (run lenient (site (Some [(js "a.md", Some titleOnly); (js "b.md", None);
                                        (js "c.md", Some titleOnly)])
                                 (Some [(js "p.md", Some titleOnly)])))
     = 1.
Proof.
  apply (X17_exception_ends_the_run lenient _
           [(js "a.md", Some titleOnly); (js "b.md", None); (js "c.md", Some titleOnly)]
           [(js "a.md", Some titleOnly)] [(js "c.md", Some titleOnly)]
           (js "b.md", None) emptyLog).
  - reflexivity.
  - vm_compute. reflexivity.
  - repeat constructor. eapply passable_check; [reflexivity | vm_compute; reflexivity].
  - reflexivity.
Defined.

(** ** Nothing is ever taken back *)

Lemma appends_exitDecision : appends exitDecision.
Proof.
  intros l. exists [], []. unfold exitDecision.
  destruct (0 <? length (errors l))%nat; simpl; rewrite !app_nil_r;
    destruct l; reflexivity.
Qed.

(** X18.  No part of the script removes, reorders or changes a finding
    once it is recorded: each validator, each section and the whole of
    [main] leave the two accumulators as they found them, with new
    findings appended at most, also when an exception ends the call. *)
Theorem X18_accumulators_only_grow (P : platform) (fs : filesystem) :
  (forall file filename,
     appends (validateBlogPost P fs file filename)
     /\ appends (validateProject P fs file filename))
  /\ appends (validateBlogPosts P fs)
  /\ appends (validateProjects P fs)
  /\ appends (main P fs).
Proof.
  split; [|split; [|split]].
  - intros file filename.
    split; [apply appends_validateBlogPost | apply appends_validateProject].
  - apply appends_section. intros e. apply appends_validateBlogPost.
  - apply appends_validateProjects.
  - unfold main. apply appends_bind.
    + apply appends_section. intros e. apply appends_validateBlogPost.
    + intros _. apply appends_bind; [apply appends_validateProjects|].
      intros _. apply appends_exitDecision.
Qed.

(** ** The report *)

Ltac clash H :=
  exfalso; revert H;
  first [ apply prefixClash_app; vm_compute; reflexivity
        | apply prefixClash_app_l; vm_compute; reflexivity
        | apply prefixClash_app_r; vm_compute; reflexivity
        | apply prefixClash_neq; vm_compute; reflexivity ].

Lemma in_bullets (m : jsstring) (msgs : list jsstring) :
  In (BULLET ++ m) (map (app BULLET) msgs) <-> In m msgs.
Proof.
  rewrite in_map_iff. split.
  - intros (x & Hx & Hin). apply app_inv_head in Hx. subst x. exact Hin.
  - intros Hin. exists m. split; [reflexivity | exact Hin].
Qed.

Lemma nonempty_ltb {A} (msgs : list A) :
  (0 <? length msgs)%nat = true <-> msgs <> [].
Proof.
  destruct msgs; simpl; split; intros H;
    first [discriminate | reflexivity | exfalso; apply H; reflexivity].
Qed.

(** X19.  What the report says.  Each recorded error and each recorded
    warning is listed on a bullet line of its own, and no other bullet line
    is printed.  The last line is the success message exactly when neither
    an error nor a warning was recorded, and the summary with the two
    counts otherwise; the success message is printed nowhere else.  So a
    run with warnings only exits with status 0 and is still not reported
    as a success. *)
Theorem X19_report (l : log) :
  (forall m, In (BULLET ++ m) (report l) <-> In m (errors l) \/ In m (warnings l))
  /\ (In SUCCESS_LINE (report l) <-> errors l = [] /\ warnings l = [])
  /\ last (report l)
     = Some (if (length (errors l) =? 0)%nat && (length (warnings l) =? 0)%nat
             then SUCCESS_LINE else summaryLine l)
  /\ (errors l = [] -> warnings l <> [] ->
      exitDecision l = Returned 0 l /\ ~ In SUCCESS_LINE (report l)).
Proof.
  assert (Hsuccess : In SUCCESS_LINE (report l) <-> errors l = [] /\ warnings l = []).
  { unfold report. rewrite !in_app_iff. split.
    - intros [H|[H|[H|H]]].
      + destruct H as [H|[H|[]]]; clash H.
      + destruct (0 <? length (errors l))%nat; [|destruct H].
        destruct H as [H|H]; [clash H|].
        apply in_map_iff in H as (x & H & _). clash H.
      + destruct (0 <? length (warnings l))%nat; [|destruct H].
        destruct H as [H|H]; [clash H|].
        apply in_map_iff in H as (x & H & _). clash H.
      + destruct H as [H|[]].
        destruct (errors l) as [|e es], (warnings l) as [|w ws]; simpl in H;
          try (unfold summaryLine in H; clash H).
        split; reflexivity.
    - intros [-> ->]. right; right; right. left. reflexivity. }
  split; [|split; [exact Hsuccess|split]].
  - intros m. unfold report. rewrite !in_app_iff. split.
    + intros [H|[H|[H|H]]].
      * destruct H as [H|[H|[]]]; symmetry in H; clash H.
      * destruct (0 <? length (errors l))%nat; [|destruct H].
        destruct H as [H|H]; [symmetry in H; clash H|].
        left. apply in_bullets, H.
      * destruct (0 <? length (warnings l))%nat; [|destruct H].
        destruct H as [H|H]; [symmetry in H; clash H|].
        right. apply in_bullets, H.
      * destruct H as [H|[]].
        destruct ((length (errors l) =? 0)%nat && (length (warnings l) =? 0)%nat);
          symmetry in H; [clash H | unfold summaryLine in H; clash H].
    + intros [H|H].
      * right; left.
        replace (0 <? length (errors l))%nat with true
          by (symmetry; apply nonempty_ltb; intros Hnil; rewrite Hnil in H; destruct H).
        right. apply in_bullets, H.
      * right; right; left.
        replace (0 <? length (warnings l))%nat with true
          by (symmetry; apply nonempty_ltb; intros Hnil; rewrite Hnil in H; destruct H).
        right. apply in_bullets, H.
  - unfold report. rewrite !app_assoc. apply last_snoc.
  - intros He Hw. split.
    + unfold exitDecision. rewrite He. reflexivity.
    + intros H. apply Hsuccess in H as [_ H]. exact (Hw H).
Qed.

Lemma X19_report_witness :
  exitDecision {| errors := []; warnings := [js "No blog posts found"] |}
  = Returned 0 {| errors := []; warnings := [js "No blog posts found"] |}
  /\ ~ In SUCCESS_LINE (report {| errors := []; warnings := [js "No blog posts found"] |}).
Proof.
  apply (proj2 (proj2 (proj2 (X19_report
                                {| errors := []; warnings := [js "No blog posts found"] |})))).
  - reflexivity.
  - discriminate.
Defined.

(** ** Lines that do not matter, and their order *)

Lemma parseHeader_lines (lines : list jsstring) :
  Forall (free LF) lines ->
  parseHeader (join [LF] lines) = fold_left parseLine lines ∅.
Proof.
  intros H. unfold parseHeader. destruct lines as [|line lines].
  - reflexivity.
  - rewrite split_join; [reflexivity | discriminate | exact H].
Qed.

(** X20.  A line without a colon (a blank line, a remark) can be put into
    a header, or taken out of it, anywhere: the parsed mapping is the
    same. *)
Theorem X20_lines_without_colon_are_inert (before after : list jsstring)
    (line : jsstring) :
  Forall (free LF) (before ++ after) -> free LF line -> free COLON line ->
  parseHeader (join [LF] (before ++ line :: after))
  = parseHeader (join [LF] (before ++ after)).
Proof.
  intros Hlines Hlf Hcolon.
  apply Forall_app in Hlines as [Hb Ha].
  rewrite !parseHeader_lines.
  - rewrite !fold_left_app. cbn [fold_left].
    rewrite parseLine_no_colon by exact Hcolon. reflexivity.
  - apply Forall_app. split; assumption.
  - apply Forall_app. split; [exact Hb | constructor; assumption].
Qed.

Lemma X20_lines_without_colon_are_inert_witness :
  parseHeader (join [LF] ([js "title: T"] ++ js "# a remark" :: [js "date: D"]))
  = parseHeader (join [LF] ([js "title: T"] ++ [js "date: D"])).
Proof.
  apply (X20_lines_without_colon_are_inert [js "title: T"] [js "date: D"]
           (js "# a remark")).
  - apply forallb_freeb. vm_compute. reflexivity.
  - apply freeb_spec. vm_compute. reflexivity.
  - apply freeb_spec. vm_compute. reflexivity.
Defined.

Lemma parseLine_by_key (fm : frontmatter) (line : jsstring) :
  parseLine fm line
  = match lineKey line with
    | Some k => setField k (parseValue (substringFrom line (indexOf COLON line + 1))) fm
    | None => fm
    end.
Proof.
  unfold parseLine, lineKey. destruct (indexOf COLON line >? -1); reflexivity.
Qed.

Lemma setField_commute (k1 k2 : jsstring) (v1 v2 : value) (fm : frontmatter) :
  k1 <> k2 ->
  setField k2 v2 (setField k1 v1 fm) = setField k1 v1 (setField k2 v2 fm).
Proof.
  intros Hne. unfold setField. repeat case_decide; try reflexivity.
  apply insert_insert_ne. congruence.
Qed.

Lemma parseLine_commute (fm : frontmatter) (line1 line2 : jsstring) :
  lineKey line1 <> lineKey line2 ->
  parseLine (parseLine fm line1) line2 = parseLine (parseLine fm line2) line1.
Proof.
  intros Hne. rewrite !parseLine_by_key.
  destruct (lineKey line1) as [k1|], (lineKey line2) as [k2|]; try reflexivity.
  apply setField_commute. congruence.
Qed.

(** X21.  The order of two neighbouring lines that assign to different
    names, or of which only one assigns at all, does not matter for the
    parsed mapping. *)
Theorem X21_order_of_different_fields (before after : list jsstring)
    (line1 line2 : jsstring) :
  Forall (free LF) (before ++ line1 :: line2 :: after) ->
  lineKey line1 <> lineKey line2 ->
  parseHeader (join [LF] (before ++ line1 :: line2 :: after))
  = parseHeader (join [LF] (before ++ line2 :: line1 :: after)).
Proof.
  intros Hlines Hne.
  rewrite !parseHeader_lines.
  - rewrite !fold_left_app. cbn [fold_left].
    rewrite (parseLine_commute _ line1 line2 Hne). reflexivity.
  - apply Forall_app in Hlines as [Hb Ha].
    inversion Ha as [|? ? H1 Ha']; subst. inversion Ha' as [|? ? H2 Ha'']; subst.
    apply Forall_app. split; [exact Hb|]. repeat constructor; assumption.
  - exact Hlines.
Qed.

Lemma X21_order_of_different_fields_witness :
  parseHeader (join [LF] ([] ++ js "title: T" :: js "date: D" :: [js "title: U"]))
  = parseHeader (join [LF] ([] ++ js "date: D" :: js "title: T" :: [js "title: U"])).
Proof.
  apply (X21_order_of_different_fields [] [js "title: U"] (js "title: T") (js "date: D")).
  - apply forallb_freeb. vm_compute. reflexivity.
  - vm_compute. discriminate.
Defined.

(** ** A site with nothing to report *)

Lemma forEach_unchanged (files : list entry) (f : entry -> M unit) (l : log) :
  Forall (fun e => f e l = Returned tt l) files ->
  forEach files f l = Returned tt l.
Proof.
  induction 1 as [|e files He _ IH]; [reflexivity|].
  cbn [forEach]. rewrite bind_apply, He. exact IH.
Qed.

(** X22.  When both content directories exist and list at least one
    markdown file each, and every such file can be read, has a header and
    is clean by the rules of its kind, the run records nothing, ends with
    exit status 0, and its report closes with the success message. *)
Theorem X22_clean_site_succeeds (P : platform) (fs : filesystem)
    (posts projects : list entry) :
  blogDir fs = Some posts -> projectsDir fs = Some projects ->
  markdownFiles (Some posts) <> [] -> markdownFiles (Some projects) <> [] ->
  Forall (fun e => exists content fm body,
                     e.2 = Some content /\ parseText content = (Some fm, body)
                     /\ blogClean P fs fm body = true)
         (markdownFiles (Some posts)) ->
  Forall (fun e => exists content fm body,
                     e.2 = Some content /\ parseText content = (Some fm, body)
                     /\ projectClean P fs fm body = true)
         (markdownFiles (Some projects)) ->
  run P fs = Returned 0 emptyLog
  /\ exitCode (run P fs) = 0
  /\ last (report emptyLog) = Some SUCCESS_LINE.
Proof.
  intros Hblog Hprojects Hposts Hprojs Hcleanb Hcleanp.
  assert (Hrun : run P fs = Returned 0 emptyLog).
  { unfold run, main. fold emptyLog. rewrite bind_apply.
    unfold validateBlogPosts. rewrite Hblog, section_listing by exact Hposts.
    rewrite forEach_unchanged.
    - rewrite bind_apply. unfold validateProjects.
      rewrite Hprojects, section_listing by exact Hprojs.
      rewrite forEach_unchanged; [reflexivity|].
      eapply Forall_impl; [exact Hcleanp|].
      intros e (content & fm & body & -> & Hparse & Hclean).
      apply (validateProject_clean P fs content body _ fm emptyLog Hparse), Hclean.
    - eapply Forall_impl; [exact Hcleanb|].
      intros e (content & fm & body & -> & Hparse & Hclean).
      apply (validateBlogPost_clean P fs content body _ fm emptyLog Hparse), Hclean. }
  split; [exact Hrun|]. split; [rewrite Hrun; reflexivity | reflexivity].
Qed.

Lemma X22_clean_site_succeeds_witness :
  run lenient cleanSite = Returned 0 emptyLog
  /\ exitCode (run lenient cleanSite) = 0
  /\ last (report emptyLog) = Some SUCCESS_LINE.
Proof.
  apply (X22_clean_site_succeeds lenient cleanSite
           [(js "post.md", Some cleanPost)] [(js "project.md", Some cleanProject)]).
  - reflexivity.
  - reflexivity.
  - vm_compute. discriminate.
  - vm_compute. discriminate.
  - replace (markdownFiles (Some [(js "post.md", Some cleanPost)]))
      with [(js "post.md", Some cleanPost)] by (vm_compute; reflexivity).
    constructor; [|constructor].
    exists cleanPost, cleanPostFields, (repeat 120%N 100).
    repeat split; vm_compute; reflexivity.
  - replace (markdownFiles (Some [(js "project.md", Some cleanProject)]))
      with [(js "project.md", Some cleanProject)] by (vm_compute; reflexivity).
    constructor; [|constructor].
    exists cleanProject, cleanProjectFields, (repeat 120%N 200).
    repeat split; vm_compute; reflexivity.
Defined.
